(** * DB-Playground: the answer verifier, the history ledger and navigation

    A shallow embedding of [app.py] and [reset_db.py].  The page script is a
    sequence of effects on a SQLite file and on the Streamlit output; it is
    modelled with a small state monad over a [World] record.  Library calls
    (pandas, sqlite3, concurrent.futures) are modelled by what they do on
    the values that reach them; each model says so where it is defined. *)

From Stdlib Require Import ZArith String Ascii.
From Stdlib Require PrimFloat Uint63.
From stdpp Require Import base decidable list sorting gmap strings pretty.

Local Open Scope Z_scope.

(** ** Comparison functions that are total orders *)

Class CompareOrder {A} (cmp : A → A → comparison) : Prop := {
  cmp_eq x y : cmp x y = Eq ↔ x = y;
  cmp_opp x y : cmp y x = CompOpp (cmp x y);
  cmp_lt_trans x y z : cmp x y = Lt → cmp y z = Lt → cmp x z = Lt
}.

Definition cmp_le {A} (cmp : A → A → comparison) : relation A :=
  λ x y, cmp x y ≠ Gt.

Global Instance cmp_le_dec {A} (cmp : A → A → comparison) x y :
  Decision (cmp_le cmp x y).
Proof. unfold cmp_le. destruct (cmp x y); [left|left|right]; congruence. Defined.

(** Lexicographic comparison of two sequences, the way Python and SQLite
    compare tuples and strings: first difference decides, a proper prefix is
    smaller. *)
Fixpoint lex_compare {A} (cmp : A → A → comparison) (l1 l2 : list A) : comparison :=
  match l1, l2 with
  | [], [] => Eq
  | [], _ :: _ => Lt
  | _ :: _, [] => Gt
  | x :: l1, y :: l2 =>
      match cmp x y with
      | Eq => lex_compare cmp l1 l2
      | c => c
      end
  end.

(** ** Result sets

    [pd.read_sql_query] turns the rows SQLite returns into a [DataFrame]:
    the column labels, a row index [0..n-1], and one tuple of cells per row.
    A cell is what SQLite stored: NULL, an INTEGER or a TEXT; REAL cells
    are outside this model.  pandas gives every column a dtype: [int64]
    when all its cells are integers, [float64] when it holds integers and
    NULLs, [object] otherwise.  In a [float64] column an integer is kept
    as the nearest double; that double is again an integer, and the cell
    holds it as such. *)

Inductive value :=
  | VNull
  | VInt (n : Z)
  | VText (s : string).

Global Instance value_eq_dec : EqDecision value.
Proof. solve_decision. Defined.

Definition row := list value.

(** A column label is the name SQLite reports, or a position once the
    submit handler has assigned [range(len(df.columns))]. *)
Inductive label :=
  | Name (s : string)
  | Pos (i : nat).

Global Instance label_eq_dec : EqDecision label.
Proof. solve_decision. Defined.

Record DataFrame := {
  columns : list label;
  index : list nat;
  rows : list row
}.

Global Instance DataFrame_eq_dec : EqDecision DataFrame.
Proof. solve_decision. Defined.

(** The cells of column [j], top to bottom. *)
Definition cells (j : nat) (l : list row) : list value :=
  (λ r, default VNull (r !! j)) <$> l.

Definition column (j : nat) (df : DataFrame) : list value := cells j (rows df).

Definition is_int (v : value) : bool :=
  match v with VInt _ => true | _ => false end.
Definition is_null (v : value) : bool :=
  match v with VNull => true | _ => false end.
Definition is_text (v : value) : bool :=
  match v with VText _ => true | _ => false end.

(** The dtype pandas infers for a column is [int64] when the column has a
    cell and all its cells are integers, *)
Definition is_integer_dtype (col : list value) : bool :=
  bool_decide (col ≠ []) && forallb is_int col.

(** and [float64] when it holds an integer and a NULL, and no text. *)
Definition is_float_dtype (col : list value) : bool :=
  existsb is_int col && existsb is_null col && negb (existsb is_text col).

(** The integer that the double nearest to [n] stands for: [n] itself up
    to 53 bits, beyond that its 53 leading bits, rounded half to even. *)
Definition float64_of_int (n : Z) : Z :=
  let a := Z.abs n in
  if a <? 2 ^ 53 then n
  else
    let e := Z.log2 a - 52 in
    let q := a / 2 ^ e in
    let r := a mod 2 ^ e in
    let half := 2 ^ (e - 1) in
    let q := if (half <? r) || ((r =? half) && Z.odd q) then q + 1 else q in
    Z.sgn n * (q * 2 ^ e).

Definition as_float64 (v : value) : value :=
  match v with
  | VInt n => VInt (float64_of_int n)
  | _ => v
  end.

(** One row, given for each column whether it is a [float64] column. *)
Fixpoint coerce_row (floats : list bool) (r : row) : row :=
  match r, floats with
  | v :: r, b :: floats => (if b then as_float64 v else v) :: coerce_row floats r
  | _, _ => r
  end.

(** [coerce_float=True], the default of [read_sql_query]. *)
Definition coerce_float (width : nat) (tuples : list row) : list row :=
  let floats := (λ j, is_float_dtype (cells j tuples)) <$> seq 0 width in
  coerce_row floats <$> tuples.

(** The frame [read_sql_query] builds from the column names and the fetched
    tuples. *)
Definition read_frame (names : list string) (tuples : list row) : DataFrame :=
  {| columns := Name <$> names;
     index := seq 0 (length tuples);
     rows := coerce_float (length names) tuples |}.

Definition shape (df : DataFrame) : nat * nat :=
  (length (rows df), length (columns df)).

(** [len(df)] *)
Definition len (df : DataFrame) : nat := length (rows df).

(** [df.head(n)] *)
Definition head (n : nat) (df : DataFrame) : DataFrame :=
  {| columns := columns df;
     index := take n (index df);
     rows := take n (rows df) |}.

(** [df.columns = range(len(df.columns))] *)
Definition set_columns_range (df : DataFrame) : DataFrame :=
  {| columns := Pos <$> seq 0 (length (columns df));
     index := index df;
     rows := rows df |}.

(** [df.reset_index(drop=True)] *)
Definition reset_index (df : DataFrame) : DataFrame :=
  {| columns := columns df;
     index := seq 0 (length (rows df));
     rows := rows df |}.

(** *** Exceptions of the comparison block *)

Inductive exn :=
  | AssertionError
  | TypeError (msg : string).

Inductive py (A : Type) :=
  | Return (a : A)
  | Raise (e : exn).
Arguments Return {A} a.
Arguments Raise {A} e.

Global Instance py_ret : MRet py := λ A a, Return a.
Global Instance py_bind : MBind py := λ A B f m,
  match m with
  | Return a => f a
  | Raise e => Raise e
  end.

(** *** Ordering of cells

    Ascending order with missing values last ([na_position='last'], the
    default of [sort_values]).  Integers are ordered as numbers and texts
    by code point.  With two or more sort keys pandas orders the cells of
    a column that mixes both with the integers first; with one sort key it
    lets Python compare them, which refuses (see [sort_values]). *)
Definition value_compare (a b : value) : comparison :=
  match a, b with
  | VNull, VNull => Eq
  | VNull, _ => Gt
  | _, VNull => Lt
  | VInt x, VInt y => Z.compare x y
  | VInt _, VText _ => Lt
  | VText _, VInt _ => Gt
  | VText s, VText t => String.compare s t
  end.

Definition row_compare : row → row → comparison := lex_compare value_compare.

Definition row_le : relation row := cmp_le row_compare.

(** Two cells Python can order: a missing value is set aside by the sort
    and never compared; otherwise both are integers or both are texts. *)
Definition comparable (a b : value) : bool :=
  match a, b with
  | VNull, _ | _, VNull => true
  | VInt _, VInt _ => true
  | VText _, VText _ => true
  | _, _ => false
  end.

(** Column by column, as the sort keys are the columns. *)
Fixpoint row_comparable (r1 r2 : row) : bool :=
  match r1, r2 with
  | a :: r1, b :: r2 => comparable a b && row_comparable r1 r2
  | _, _ => true
  end.

(** No column of the frame mixes integers and texts. *)
Definition sortable (l : list row) : Prop :=
  Forall (λ r1, Forall (λ r2, row_comparable r1 r2 = true) l) l.

Global Instance sortable_dec l : Decision (sortable l).
Proof. unfold sortable. apply _. Defined.

Definition type_name (v : value) : string :=
  match v with
  | VNull => "NoneType"
  | VInt _ => "int"
  | VText _ => "str"
  end.

(** [str(e)] of the [TypeError] Python raises for [a < b] between a text
    and an integer. *)
Definition type_error_text (a b : value) : string :=
  "'<' not supported between instances of '" +:+ type_name a +:+ "' and '"
  +:+ type_name b +:+ "'".

(** The first comparison that fails when the cells of one column are
    sorted on their own.  The missing values are set aside; numpy then
    takes the others from the top and compares each with those before it,
    so the first cell that is not of the kind of the topmost one is
    compared, as the left operand, with a cell of that kind.  (This is the
    insertion sort numpy uses on a short column; a long column is first
    partitioned around a pivot, and the failing comparison may then name
    the same two types in the other order.) *)
Definition first_clash (col : list value) : option (value * value) :=
  match filter (λ v, v ≠ VNull) col with
  | v0 :: vs =>
      (λ p, (p.2, v0)) <$> list_find (λ v, comparable v v0 = false) vs
  | [] => None
  end.

(** The rows, each with its index label, in ascending order of the full
    tuple of cells. *)
Definition sorted_by_all_columns (df : DataFrame) : DataFrame :=
  let sorted := merge_sort (λ a b, row_le a.2 b.2) (zip (index df) (rows df)) in
  {| columns := columns df;
     index := sorted.*1;
     rows := sorted.*2 |}.

(** [df.sort_values(by=list(df.columns))].  Without a column there is no
    key and the frame is returned as it is.  With one column the cells are
    compared by Python, and a column that holds both an integer and a text
    raises [TypeError].  With more columns every key is first replaced by
    the rank of the cell among the distinct cells of its column, and no
    cell is compared with a cell of another kind. *)
Definition sort_values (df : DataFrame) : py DataFrame :=
  match columns df with
  | [] => Return df
  | [_] =>
      match first_clash (column 0 df) with
      | Some (a, b) => Raise (TypeError (type_error_text a b))
      | None => Return (sorted_by_all_columns df)
      end
  | _ => Return (sorted_by_all_columns df)
  end.

(** *** Comparison of cells *)

(** The double nearest to an integer. *)
Definition float64 (n : Z) : PrimFloat.float :=
  let a := Z.abs (float64_of_int n) in
  let e := Z.max 0 (Z.log2 a - 62) in
  let f := Z.iter e (PrimFloat.mul (PrimFloat.of_uint63 (Uint63.of_Z 2)))
             (PrimFloat.of_uint63 (Uint63.of_Z (a / 2 ^ e))) in
  if n <? 0 then PrimFloat.opp f else f.

(** [rtol=1e-5] and [atol=1e-8], the defaults of [assert_frame_equal]. *)
Definition rel_tol : PrimFloat.float :=
  PrimFloat.div (PrimFloat.of_uint63 (Uint63.of_Z 1))
    (PrimFloat.of_uint63 (Uint63.of_Z 100000)).
Definition abs_tol : PrimFloat.float :=
  PrimFloat.div (PrimFloat.of_uint63 (Uint63.of_Z 1))
    (PrimFloat.of_uint63 (Uint63.of_Z 100000000)).

(** [math.isclose(a, b, rel_tol=rtol, abs_tol=atol)] on two numbers that
    are not equal, computed as C does, in double precision. *)
Definition isclose (a b : Z) : bool :=
  let fa := float64 a in
  let fb := float64 b in
  let diff := PrimFloat.abs (PrimFloat.sub fb fa) in
  PrimFloat.leb diff (PrimFloat.abs (PrimFloat.mul rel_tol fb))
  || PrimFloat.leb diff (PrimFloat.abs (PrimFloat.mul rel_tol fa))
  || PrimFloat.leb diff abs_tol.

(** [assert_almost_equal] on two cells: a missing value equals a missing
    value, a text equals the same text, and two numbers are equal when
    they are the same or close. *)
Definition assert_almost_equal (a b : value) : bool :=
  bool_decide (a = b)
  || match a, b with
     | VInt x, VInt y => isclose x y
     | _, _ => false
     end.

(** [assert_series_equal] on the cells of one column of each frame, with
    [check_dtype=False] and [check_exact] left to its default: exact when
    one of the two columns has an integer dtype, cell by cell with
    [assert_almost_equal] otherwise (pandas 2.2 and later). *)
Definition assert_series_equal (left right : list value) : bool :=
  if is_integer_dtype left || is_integer_dtype right
  then bool_decide (left = right)
  else bool_decide (length left = length right)
       && forallb (λ p, assert_almost_equal p.1 p.2) (zip left right).

(** [pd.testing.assert_frame_equal(left, right, check_dtype=False)]: the
    shapes, the column labels and the index agree, and so does every
    column. *)
Definition assert_frame_equal (left right : DataFrame) : py unit :=
  if decide (shape left = shape right) then
    if decide (columns left = columns right ∧ index left = index right) then
      if forallb (λ j, assert_series_equal (column j left) (column j right))
           (seq 0 (length (columns left)))
      then Return ()
      else Raise AssertionError
    else Raise AssertionError
  else Raise AssertionError.

(** The [try] body of the submit handler (lines 365-374). *)
Definition compare_frames (expected_df user_df : DataFrame) : py unit :=
  let expected_df := set_columns_range expected_df in
  let user_df := set_columns_range user_df in
  left ← (e ← sort_values expected_df; mret (reset_index e));
  right ← (u ← sort_values user_df; mret (reset_index u));
  assert_frame_equal left right.

(** What the [try]/[except] of the submit handler makes of it (lines
    364-382): no exception, [except AssertionError], or
    [except Exception as e] with [str(e)]. *)
Inductive verdict :=
  | Correct
  | Mismatch
  | CannotCompare (str_e : string).

Definition judge (expected_df user_df : DataFrame) : verdict :=
  match compare_frames expected_df user_df with
  | Return _ => Correct
  | Raise AssertionError => Mismatch
  | Raise (TypeError msg) => CannotCompare msg
  end.

(** ** The database file [review.db]

    One table per name.  [USER_HISTORY] is the ledger, with the columns the
    [CREATE TABLE] statement of [init_history_table] declares; every other
    table is a practice table holding plain rows. *)

Record HistoryEntry := {
  rowid : nat;                      (* id INTEGER PRIMARY KEY AUTOINCREMENT *)
  question_id : Z;
  user_sql : string;
  is_correct : bool;
  error_message : option string;
  timestamp : N                     (* CURRENT_TIMESTAMP, whole seconds *)
}.

Global Instance HistoryEntry_eq_dec : EqDecision HistoryEntry.
Proof. solve_decision. Defined.

Inductive table :=
  | Ledger (entries : list HistoryEntry)
  | Rows (l : list row).

Abbreviation Database := (gmap string table).

Definition USER_HISTORY : string := "USER_HISTORY".

(** The entries of the ledger, in insertion order; none when the table is
    missing. *)
Definition ledger (d : Database) : list HistoryEntry :=
  match d !! USER_HISTORY with
  | Some (Ledger l) => l
  | _ => []
  end.

(** [CREATE TABLE IF NOT EXISTS USER_HISTORY (...)] *)
Definition create_history_if_not_exists (d : Database) : Database :=
  match d !! USER_HISTORY with
  | Some _ => d
  | None => <[USER_HISTORY := Ledger []]> d
  end.

(** AUTOINCREMENT: one more than the largest id in use. *)
Definition next_rowid (l : list HistoryEntry) : nat :=
  S (foldr (λ e m, Nat.max (rowid e) m) 0%nat l).

(** The [INSERT INTO USER_HISTORY] of [save_history], at wall-clock second
    [now]: the new row, or the error SQLite reports. *)
Definition insert_history (question_id : Z) (user_sql : string)
    (is_correct : bool) (error_message : option string) (now : N)
    (d : Database) : string + Database :=
  match d !! USER_HISTORY with
  | Some (Ledger l) =>
      inr (<[USER_HISTORY := Ledger (l ++ [
             {| rowid := next_rowid l;
                question_id := question_id;
                user_sql := user_sql;
                is_correct := is_correct;
                error_message := error_message;
                timestamp := now |}])]> d)
  | Some (Rows _) => inl "table USER_HISTORY has no column named question_id"
  | None => inl "no such table: USER_HISTORY"
  end.

(** [ORDER BY timestamp DESC]: rows with a later timestamp first; rows with
    the same timestamp stay in the order the table scan yields them, which
    is insertion order. *)
Fixpoint insert_desc (e : HistoryEntry) (l : list HistoryEntry) : list HistoryEntry :=
  match l with
  | [] => [e]
  | y :: l' =>
      if (timestamp e <? timestamp y)%N then y :: insert_desc e l'
      else e :: y :: l'
  end.

Definition order_by_timestamp_desc (l : list HistoryEntry) : list HistoryEntry :=
  foldr insert_desc [] l.

(** The four columns [get_history] selects. *)
Definition history_row : Type := string * bool * option string * N.

Definition select_history (e : HistoryEntry) : history_row :=
  (user_sql e, is_correct e, error_message e, timestamp e).

(** [get_history(question_id)]; the empty frame when the query fails. *)
Definition get_history (qid : Z) (d : Database) : list history_row :=
  match d !! USER_HISTORY with
  | Some (Ledger l) =>
      select_history <$>
        order_by_timestamp_desc (filter (λ e, question_id e = qid) l)
  | _ => []
  end.

(** [get_solved_questions()]:
    [SELECT DISTINCT question_id FROM USER_HISTORY WHERE is_correct = 1],
    as a Python set; the empty set when the query fails. *)
Definition get_solved_questions (d : Database) : gset Z :=
  match d !! USER_HISTORY with
  | Some (Ledger l) =>
      list_to_set (question_id <$> filter (λ e, is_correct e = true) l)
  | _ => ∅
  end.

(** ** Seed scripts

    The files of [school/] are not part of the sources; a script is taken
    as the list of its statements, each with what the two regular
    expressions of [init_db] can tell of its spelling:
    - [Use keyword database] is the MySQL statement [use <database>;],
      with the keyword and the name as the script spells them;
    - [DropTable name bare] is [drop table <name>;] without [IF EXISTS];
      [bare] says that the name is written as a plain word, without quotes
      or brackets, and that the semicolon follows it at once.

    SQLite does not distinguish upper and lower case in the name of a
    table: a [Database] keeps every table under its name in upper case. *)

Definition upper_ascii (c : ascii) : ascii :=
  let n := nat_of_ascii c in
  if ((97 <=? n) && (n <=? 122))%nat then ascii_of_nat (n - 32) else c.

Fixpoint upper (s : string) : string :=
  match s with
  | String c s => String (upper_ascii c) (upper s)
  | EmptyString => EmptyString
  end.

Inductive stmt :=
  | Use (keyword database : string)
  | DropTable (name : string) (bare : bool)
  | DropTableIfExists (name : string)
  | CreateTable (name : string)
  | InsertInto (name : string) (r : row).

Global Instance stmt_eq_dec : EqDecision stmt.
Proof. solve_decision. Defined.

(** The table a statement names, as the database knows it. *)
Definition stmt_table (s : stmt) : option string :=
  match s with
  | Use _ _ => None
  | DropTable t _ | DropTableIfExists t | CreateTable t | InsertInto t _ =>
      Some (upper t)
  end.

(** [re.sub(r'use\s+school\s*;', '', content, flags=re.IGNORECASE)] *)
Definition is_use_school (s : stmt) : bool :=
  match s with
  | Use keyword database =>
      bool_decide (upper keyword = "USE" ∧ upper database = "SCHOOL")
  | _ => false
  end.

(** [re.sub(r'drop\s+table\s+(\w+);', r'DROP TABLE IF EXISTS \1;', ...)] *)
Definition add_if_exists (s : stmt) : stmt :=
  match s with
  | DropTable t true => DropTableIfExists t
  | _ => s
  end.

(** The two [re.sub] calls of [init_db]: [use school;] is removed, in
    whatever case it is written, and a [drop table X;] of the form the
    second expression matches becomes [DROP TABLE IF EXISTS X;]. *)
Definition rewrite_script (content : list stmt) : list stmt :=
  add_if_exists <$> filter (λ s, is_use_school s = false) content.

(** A row inserted into the ledger by a script has to fit its columns. *)
Definition entry_of_row (r : row) : option HistoryEntry :=
  match r with
  | [VInt i; VInt q; VText s; VInt c; m; VInt t] =>
      b ← (if decide (c = 0) then Some false
           else if decide (c = 1) then Some true else None);
      msg ← match m with
            | VNull => Some None
            | VText e => Some (Some e)
            | VInt _ => None
            end;
      Some {| rowid := Z.to_nat i; question_id := q; user_sql := s;
              is_correct := b; error_message := msg;
              timestamp := Z.to_N t |}
  | _ => None
  end.

Definition dquote : string := String (ascii_of_nat 34) EmptyString.

(** The columns of the practice tables and their constraints are declared
    in the seed files.  With [PRAGMA foreign_keys = ON], which both
    [init_db] issue first, SQLite refuses a [DROP TABLE] or an [INSERT]
    that breaks a foreign key, as it refuses an [INSERT] that breaks any
    other constraint.  Which statement is refused on which database, and
    with which error text, is a parameter of the model. *)
Definition Constraints : Type := stmt → Database → option string.

(** One statement on the database: the error text, or the new database. *)
Definition exec_stmt (violation : Constraints) (s : stmt) (d : Database)
    : string + Database :=
  let checked d' :=
    match violation s d with
    | Some e => inl e
    | None => inr d'
    end in
  match s with
  | Use keyword _ =>
      inl ("near " +:+ dquote +:+ keyword +:+ dquote +:+ ": syntax error")
  | DropTable t _ =>
      match d !! upper t with
      | Some _ => checked (delete (upper t) d)
      | None => inl ("no such table: " +:+ t)
      end
  | DropTableIfExists t =>
      match d !! upper t with
      | Some _ => checked (delete (upper t) d)
      | None => inr d
      end
  | CreateTable t =>
      match d !! upper t with
      | Some _ => inl ("table " +:+ t +:+ " already exists")
      | None => inr (<[upper t := Rows []]> d)
      end
  | InsertInto t r =>
      match d !! upper t with
      | Some (Rows l) => checked (<[upper t := Rows (l ++ [r])]> d)
      | Some (Ledger l) =>
          match entry_of_row r with
          | Some e => checked (<[upper t := Ledger (l ++ [e])]> d)
          | None => inl "datatype mismatch"
          end
      | None => inl ("no such table: " +:+ t)
      end
  end.

(** [cursor.executescript(content)]: statement after statement, each one
    committed; the first error stops the script and is raised, what ran
    before it stays. *)
Fixpoint executescript (violation : Constraints) (content : list stmt)
    (d : Database) : option string * Database :=
  match content with
  | [] => (None, d)
  | s :: content =>
      match exec_stmt violation s d with
      | inl e => (Some e, d)
      | inr d' => executescript violation content d'
      end
  end.

Definition SQL_DIR : string := "school".
Definition SQL_FILES : list string :=
  ["STUDENTS.sql"; "TEACHERS.sql"; "COURSES.sql"; "CHOICES.sql"].

(** [os.path.join(SQL_DIR, sql_file)] *)
Definition path_join (dir file : string) : string := dir +:+ "/" +:+ file.

(** The [for sql_file in SQL_FILES] loop, shared by both [init_db]: files
    that exist are rewritten and run; an exception leaves the loop. *)
Fixpoint seed_files (violation : Constraints) (fs : gmap string (list stmt))
    (files : list string) (d : Database) : option string * Database :=
  match files with
  | [] => (None, d)
  | sql_file :: files =>
      match fs !! path_join SQL_DIR sql_file with
      | Some content =>
          match executescript violation (rewrite_script content) d with
          | (Some e, d') => (Some e, d')
          | (None, d') => seed_files violation fs files d'
          end
      | None => seed_files violation fs files d
      end
  end.

(** ** The world the page script runs in *)

(** What Streamlit is asked to show. *)
Inductive widget :=
  | st_error (body : string)
  | st_warning (body : string)
  | st_success (body : string)
  | st_toast (body : string)
  | st_caption (body : string)
  | st_dataframe (df : DataFrame)
  | st_exception (text : string).   (* an exception nobody caught *)

Record World := {
  db : Database;            (* the tables of review.db *)
  clock : N;                (* wall clock, in milliseconds *)
  screen : list widget;     (* output so far, oldest first *)
  queries : list string     (* SQL texts handed to run_query, oldest first *)
}.

Definition M (A : Type) : Type := World → A * World.

Global Instance M_ret : MRet M := λ A a w, (a, w).
Global Instance M_bind : MBind M := λ A B f m w,
  let '(a, w') := m w in f a w'.

Definition show (x : widget) : M unit := λ w,
  ((), {| db := db w; clock := clock w; screen := screen w ++ [x];
          queries := queries w |}).

Definition set_db (d : Database) : M unit := λ w,
  ((), {| db := d; clock := clock w; screen := screen w; queries := queries w |}).

Definition set_clock (t : N) : M unit := λ w,
  ((), {| db := db w; clock := t; screen := screen w; queries := queries w |}).

Definition get_db : M Database := λ w, (db w, w).
Definition get_clock : M N := λ w, (clock w, w).

(** [CURRENT_TIMESTAMP] has a resolution of one second. *)
Definition current_timestamp : M N := λ w, ((clock w / 1000)%N, w).

(** [init_history_table()] *)
Definition init_history_table : M unit :=
  d ← get_db; set_db (create_history_if_not_exists d).

(** [save_history(question_id, user_sql, is_correct, error_message)] *)
Definition save_history (question_id : Z) (user_sql : string)
    (is_correct : bool) (error_message : option string) : M unit :=
  d ← get_db;
  now ← current_timestamp;
  match insert_history question_id user_sql is_correct error_message now d with
  | inr d' => set_db d'
  | inl e => show (st_error ("Failed to save history: " +:+ e))
  end.

(** [init_db()] of [app.py]; [fs] is the content of the seed directory and
    [violation] tells which of its statements the constraints refuse.  The
    clearing of the Streamlit cache has no effect on the tables. *)
Definition init_db (violation : Constraints) (fs : gmap string (list stmt))
    : M unit :=
  d ← get_db;
  let d := create_history_if_not_exists d in
  match seed_files violation fs SQL_FILES d with
  | (None, d') =>
      _ ← set_db d';
      show (st_success "数据库已成功初始化/重置！")
  | (Some e, d') =>
      _ ← set_db d';
      show (st_error ("初始化失败: " +:+ e))
  end.

(** [init_db()] of [reset_db.py]: the same loop, no ledger statement, and
    the progress goes to standard output, which is not modelled. *)
Module reset_db.
Definition init_db (violation : Constraints) (fs : gmap string (list stmt))
    (d : Database) : Database :=
  (seed_files violation fs SQL_FILES d).2.
End reset_db.

(** ** Questions *)

Record Question := {
  q_id : Z;                 (* "id" *)
  title : string;
  description : string;
  answer_sql : string
}.

(** [load_questions()] on the decoded [answers.json]: one pair of the
    "question" and "sql" fields per item, numbered from 0. *)
Definition load_questions (data : list (string * string)) : list Question :=
  imap (λ idx item, {| q_id := Z.of_nat idx; title := item.1;
                        description := item.1; answer_sql := item.2 |}) data.

(** ** Python strings *)

(** A Python string is taken in its UTF-8 encoding, one [ascii] per byte.
    [str.isspace] on a character of the ASCII range: *)
Definition isspace (c : ascii) : bool :=
  let n := nat_of_ascii c in
  ((9 <=? n) && (n <=? 13) || (28 <=? n) && (n <=? 32))%nat.

(** The whitespace characters beyond ASCII, by their encoding: U+0085 and
    U+00A0 in two bytes; U+1680, U+2000 to U+200A, U+2028, U+2029, U+202F,
    U+205F and U+3000 in three. *)
Definition isspace2 (a b : ascii) : bool :=
  let a := nat_of_ascii a in
  let b := nat_of_ascii b in
  ((a =? 194) && ((b =? 133) || (b =? 160)))%nat.

Definition isspace3 (a b c : ascii) : bool :=
  let a := nat_of_ascii a in
  let b := nat_of_ascii b in
  let c := nat_of_ascii c in
  ((a =? 225) && (b =? 154) && (c =? 128)
   || (a =? 226) && (b =? 128)
      && ((128 <=? c) && (c <=? 138) || (c =? 168) || (c =? 169) || (c =? 175))
   || (a =? 226) && (b =? 129) && (c =? 159)
   || (a =? 227) && (b =? 128) && (c =? 128))%nat.

(** [s.lstrip()] *)
Fixpoint lstrip (s : string) : string :=
  match s with
  | String a s1 =>
      if isspace a then lstrip s1
      else
        match s1 with
        | String b s2 =>
            if isspace2 a b then lstrip s2
            else
              match s2 with
              | String c s3 => if isspace3 a b c then lstrip s3 else s
              | EmptyString => s
              end
        | EmptyString => s
        end
  | EmptyString => EmptyString
  end.

(** [s.rstrip()] on the reversed string: the bytes of a character come
    last byte first. *)
Fixpoint rstrip_reversed (s : string) : string :=
  match s with
  | String c s1 =>
      if isspace c then rstrip_reversed s1
      else
        match s1 with
        | String b s2 =>
            if isspace2 b c then rstrip_reversed s2
            else
              match s2 with
              | String a s3 => if isspace3 a b c then rstrip_reversed s3 else s
              | EmptyString => s
              end
        | EmptyString => s
        end
  | EmptyString => EmptyString
  end.

(** [s.strip()] *)
Definition strip (s : string) : string :=
  String.rev (rstrip_reversed (String.rev (lstrip s))).

(** A text made of whitespace characters only. *)
Inductive whitespace : string → Prop :=
  | whitespace_nil : whitespace ""
  | whitespace_1 a s :
      isspace a = true → whitespace s → whitespace (String a s)
  | whitespace_2 a b s :
      isspace2 a b = true → whitespace s → whitespace (String a (String b s))
  | whitespace_3 a b c s :
      isspace3 a b c = true → whitespace s →
      whitespace (String a (String b (String c s))).

(** Truth value of a string, and of [None] or a string. *)
Definition truthy (s : string) : bool := bool_decide (s ≠ "").
Definition truthy_opt (o : option string) : bool :=
  match o with
  | Some s => truthy s
  | None => false
  end.

(** ** Running queries *)

(** What SQLite does with one SQL text on the database: the tables
    afterwards, the error text or the fetched frame, and how long the call
    runs, in milliseconds. *)
Record outcome := {
  after : Database;
  answer : string + DataFrame;
  took : N
}.

(** [concurrent.futures.Future] of a submitted [run_query]: when the worker
    thread finishes, and what it returns. *)
Record Future := {
  done_at : N;
  returned : option DataFrame * option string
}.

Inductive TimeoutError := timeout_error.

Section engine.
(** The SQLite engine is a parameter: any SQL text may read or change any
    table. *)
Variable sqlite : string → Database → outcome.

(** [pd.read_sql_query(query, conn)] on a fresh connection. *)
Definition read_sql_query (query : string) : M (string + DataFrame) := λ w,
  let o := sqlite query (db w) in
  (answer o,
   {| db := after o; clock := (clock w + took o)%N; screen := screen w;
      queries := queries w ++ [query] |}).

(** [run_query(query)] *)
Definition run_query (query : string) : M (option DataFrame * option string) :=
  r ← read_sql_query query;
  match r with
  | inr df => mret (Some df, None)
  | inl e => mret (None, Some e)
  end.

(** [executor.submit(run_query, query)]: the worker thread runs
    [run_query] from now on; the caller goes on at once.  The worker's
    writes are entered here; the caller does not look at the database
    before the worker has finished (see [shutdown]). *)
Definition submit (query : string) : M Future := λ w,
  let '(r, w') := run_query query w in
  ({| done_at := clock w'; returned := r |},
   {| db := db w'; clock := clock w; screen := screen w';
      queries := queries w' |}).

(** [future.result(timeout=timeout_seconds)]: wait for the worker, at
    most [timeout_seconds]. *)
Definition result (future : Future) (timeout_seconds : N)
    : M (TimeoutError + option DataFrame * option string) :=
  t ← get_clock;
  if (done_at future <=? t + timeout_seconds * 1000)%N then
    _ ← set_clock (N.max t (done_at future));
    mret (inr (returned future))
  else
    _ ← set_clock (t + timeout_seconds * 1000)%N;
    mret (inl timeout_error).

(** Leaving [with ThreadPoolExecutor() as executor:] calls
    [executor.shutdown(wait=True)], which joins the worker thread. *)
Definition shutdown (future : Future) : M unit :=
  t ← get_clock; set_clock (N.max t (done_at future)).

(** [run_query_with_timeout(query, timeout_seconds=2)].  [run_query]
    catches every exception itself, so the last [except] never runs. *)
Definition run_query_with_timeout (query : string) (timeout_seconds : N)
    : M (option DataFrame * option string) :=
  future ← submit query;
  r ← result future timeout_seconds;
  let ret := match r with
             | inr v => v
             | inl timeout_error => (None, Some "Timeout")
             end in
  _ ← shutdown future;
  mret ret.

(** *** The run and submit buttons (lines 321-388) *)

Definition label_text (l : label) : string :=
  match l with
  | Name s => s
  | Pos i => pretty i
  end.

(** The [while c in seen] loop of the display code.  Each round tries a
    new name, so [length seen] rounds are enough. *)
Fixpoint unused_name (rounds : nat) (col c : label) (i : nat)
    (seen : list label) : label :=
  if decide (c ∈ seen) then
    match rounds with
    | O => c
    | S rounds =>
        unused_name rounds col (Name (label_text col +:+ "." +:+ pretty i))
          (S i) seen
    end
  else c.

(** Lines 334-345: a name that occurs twice gets a numbered suffix. *)
Definition display_columns (cols : list label) : list label :=
  if decide (NoDup cols) then cols
  else
    (foldl (λ '(seen, new_cols) col,
              let c := unused_name (length seen) col col 1 seen in
              (c :: seen, new_cols ++ [c]))
           ([], []) cols).2.

(** Lines 331-352: the first ten rows and the row count. *)
Definition display (user_df : DataFrame) : M unit :=
  let display_user_df := head 10 user_df in
  let display_user_df :=
    {| columns := display_columns (columns display_user_df);
       index := index display_user_df;
       rows := rows display_user_df |} in
  _ ← show (st_dataframe display_user_df);
  if (10 <? len user_df)%nat
  then show (st_caption ("显示前 10 行 (共 " +:+ pretty (len user_df) +:+ " 行)"))
  else show (st_caption ("共 " +:+ pretty (len user_df) +:+ " 行")).

(** Lines 360-382: what the handler makes of the reference result
    [(expected_df, expected_error)] and the learner's frame: the final
    [is_correct] and [error_msg], and the message it shows. *)
Definition verify (expected : option DataFrame * option string)
    (user_df : DataFrame) (error_msg : option string)
    : bool * option string * list widget :=
  let '(expected_df, expected_error) := expected in
  if decide (expected_error = Some "Timeout") then
    (false, Some "Reference answer timeout, validation skipped.",
     [st_warning "参考答案加载超时，本次提交不进行判题，仅保存记录。"])
  else
    match expected_df with
    | Some expected_df =>
        match judge expected_df user_df with
        | Correct => (true, error_msg, [st_toast "✅ 结果正确！"])
        | Mismatch =>
            (false, Some "Result mismatch",
             [st_toast "❌ 结果与预期不完全一致，请检查数据或排序。"])
        | CannotCompare e =>
            (false, Some e, [st_toast ("⚠️ 无法自动比对结果: " +:+ e)])
        end
    | None => (false, error_msg, [])
    end.

Definition show_all (xs : list widget) : M unit := λ w,
  ((), {| db := db w; clock := clock w; screen := screen w ++ xs;
          queries := queries w |}).

(** Lines 357-382: the reference query, then the verdict. *)
Definition grade (current_q : Question) (user_df : DataFrame)
    (error_msg : option string) : M (bool * option string) :=
  if truthy (answer_sql current_q) then
    expected ← run_query_with_timeout (answer_sql current_q) 2;
    let '(is_correct, error_msg, shown) := verify expected user_df error_msg in
    _ ← show_all shown;
    mret (is_correct, error_msg)
  else mret (false, error_msg).

Definition newline : string := String (ascii_of_nat 10) EmptyString.

(** [if run_clicked or submit_clicked: ...] *)
Definition on_click (run_clicked submit_clicked : bool)
    (current_q : Question) (user_sql : string) : M unit :=
  if run_clicked || submit_clicked then
    if truthy (strip user_sql) then
      '(user_df, error) ← run_query user_sql;
      let error_msg := error in
      if truthy_opt error then
        show (st_error ("执行出错:" +:+ newline +:+ default "" error))
      else
        match user_df with
        | None =>
            show (st_exception "'NoneType' object has no attribute 'head'")
        | Some user_df =>
            _ ← display user_df;
            if submit_clicked then
              '(is_correct, error_msg) ← grade current_q user_df error_msg;
              save_history (q_id current_q) user_sql is_correct error_msg
            else mret ()
        end
    else show (st_warning "请输入 SQL 语句")
  else mret ().
End engine.

(** ** Navigation (lines 240-264)

    [st.session_state.current_index] is a Python integer; it is absent
    before the first run of the script. *)

(** Lines 240-245, at the start of every run of the script. *)
Definition ensure_index (questions : list Question) (current_index : option Z) : Z :=
  let current_index := default 0 current_index in
  if decide (Z.of_nat (length questions) ≤ current_index) then 0
  else current_index.

(** Lines 249-252 *)
Definition question_titles (questions : list Question) (solved_ids : gset Z)
    : list string :=
  (λ q, (if decide (q_id q ∈ solved_ids) then "✅ " else "") +:+
        pretty (q_id q + 1) +:+ ". " +:+ title q) <$> questions.

Definition prev_question (current_index : Z) : Z :=
  if decide (0 < current_index) then current_index - 1 else current_index.

Definition next_question (questions : list Question) (current_index : Z) : Z :=
  if decide (current_index < Z.of_nat (length questions) - 1)
  then current_index + 1 else current_index.

(** [question_titles.index(selected)]; on [ValueError] the callback ends
    and the index keeps its value. *)
Definition update_index (titles : list string) (selected : string)
    (current_index : Z) : Z :=
  match list_find (λ t, t = selected) titles with
  | Some (i, _) => Z.of_nat i
  | None => current_index
  end.

Inductive event :=
  | click_prev
  | click_next
  | select_title (selected : string).

(** One interaction: Streamlit runs the callback of the widget, then the
    script from the top.  [solved_ids] is the set the titles on screen were
    built with. *)
Definition rerun (questions : list Question) (current_index : Z)
    (ev : gset Z * event) : Z :=
  let i :=
    match ev.2 with
    | click_prev => prev_question current_index
    | click_next => next_question questions current_index
    | select_title t =>
        update_index (question_titles questions ev.1) t current_index
    end in
  ensure_index questions (Some i).

(** The index after the first run and a sequence of interactions. *)
Definition navigate (questions : list Question) (evs : list (gset Z * event)) : Z :=
  foldl (rerun questions) (ensure_index questions None) evs.

(** ** Auxiliary definitions and the inputs of the examples *)

(** The pair [run_query] returns for what SQLite answered. *)
Definition answer_pair (a : string + DataFrame) : option DataFrame * option string :=
  match a with
  | inr df => (Some df, None)
  | inl e => (None, Some e)
  end.

(** The world after SQLite has run [query] to its end. *)
Definition ran (sqlite : string → Database → outcome) (query : string)
    (w : World) : World :=
  let o := sqlite query (db w) in
  {| db := after o; clock := (clock w + took o)%N; screen := screen w;
     queries := queries w ++ [query] |}.






(** A submission judged wrong, made when the wall clock shows [t]. *)
Definition record_wrong (w : World) (x : N * Z * string * option string) : World :=
  let '(t, qid, sql, msg) := x in
  (save_history qid sql false msg
     {| db := db w; clock := t; screen := screen w; queries := queries w |}).2.

(** Two submissions for question 0 within the same second. *)
Definition same_second_world : World :=
  let w0 := {| db := {[ USER_HISTORY := Ledger [] ]}; clock := 5000%N;
               screen := []; queries := [] |} in
  let w1 := (save_history 0 "SELECT 1" false (Some "Result mismatch") w0).2 in
  (save_history 0 "SELECT 2" true None
     {| db := db w1; clock := 5400%N; screen := screen w1;
        queries := queries w1 |}).2.

(** An engine for the examples: a database with a table of two students,
    where one query is slow and one names a table that does not exist. *)
Definition demo_sqlite (query : string) (d : Database) : outcome :=
  if decide (query = "SELECT sno FROM STUDENTS") then
    {| after := d; answer := inr (read_frame ["sno"] [[VInt 1]; [VInt 2]]);
       took := 3 |}
  else if decide (query = "SELECT a.sno FROM STUDENTS a, CHOICES b, CHOICES c") then
    {| after := d; answer := inr (read_frame ["sno"] [[VInt 1]; [VInt 2]]);
       took := 5000 |}
  else
    {| after := d; answer := inl "no such table: missing"; took := 1 |}.

Definition demo_world : World :=
  {| db := {[ USER_HISTORY := Ledger [] ]}; clock := 7000; screen := [];
     queries := [] |}.

Definition prompt : widget := st_warning "请输入 SQL 语句".

Definition first_question : Question :=
  {| q_id := 0; title := "list the student numbers";
     description := "list the student numbers";
     answer_sql := "SELECT sno FROM STUDENTS" |}.

Definition tab_and_spaces : string := String (ascii_of_nat 9) "  ".

Definition failing_sql : string := "SELECT * FROM missing".

(** What [display] puts on the screen. *)
Definition displayed (user_df : DataFrame) : list widget :=
  [st_dataframe
     {| columns := display_columns (columns user_df);
        index := take 10 (index user_df);
        rows := take 10 (rows user_df) |};
   if (10 <? len user_df)%nat
   then st_caption ("显示前 10 行 (共 " +:+ pretty (len user_df) +:+ " 行)")
   else st_caption ("共 " +:+ pretty (len user_df) +:+ " 行")].

Definition slow_question : Question :=
  {| q_id := 1; title := "students with two choices";
     description := "students with two choices";
     answer_sql := "SELECT a.sno FROM STUDENTS a, CHOICES b, CHOICES c" |}.

Definition learner_sql : string := "SELECT sno FROM STUDENTS".

Definition two_questions : list Question :=
  load_questions [("list the student numbers", "SELECT sno FROM STUDENTS");
                  ("count the courses", "SELECT COUNT(*) FROM COURSES")].

Definition some_clicks : list (gset Z * event) :=
  [(∅, click_next); (∅, click_next); ({[0]}, select_title "✅ 1. list the student numbers");
   (∅, click_prev)].

(** No statement of the seed files that [init_db] reads names the ledger
    table. *)
Definition spares_ledger (fs : gmap string (list stmt)) : Prop :=
  Forall (λ sql_file,
            match fs !! path_join SQL_DIR sql_file with
            | Some content =>
                Forall (λ s, stmt_table s ≠ Some USER_HISTORY) content
            | None => True
            end) SQL_FILES.

Global Instance spares_ledger_dec fs : Decision (spares_ledger fs).
Proof.
  unfold spares_ledger. apply Forall_dec. intros f.
  destruct (fs !! path_join SQL_DIR f); apply _.
Defined.

Definition school : gmap string (list stmt) :=
  {[ "school/STUDENTS.sql" :=
       [Use "use" "school"; DropTable "STUDENTS" true; CreateTable "STUDENTS";
        InsertInto "STUDENTS" [VInt 1; VText "Li"];
        InsertInto "STUDENTS" [VInt 2; VText "Lu"]];
     "school/COURSES.sql" :=
       [Use "USE" "School"; DropTable "courses" true; CreateTable "COURSES";
        InsertInto "Courses" [VInt 10; VText "Databases"]] ]}.

(** The rows of [CHOICES] refer to [STUDENTS]: while [CHOICES] is there,
    [STUDENTS] cannot be dropped. *)
Definition school_keys : Constraints := λ s d,
  match s with
  | DropTable t _ | DropTableIfExists t =>
      if decide (upper t = "STUDENTS" ∧ is_Some (d !! "CHOICES"))
      then Some "FOREIGN KEY constraint failed"
      else None
  | _ => None
  end.

Definition graded_world : World :=
  (save_history 0 "SELECT sno FROM STUDENTS" true None demo_world).2.

(** A world with a fresh database file: no table at all. *)
Definition empty_world : World :=
  {| db := ∅; clock := 7000; screen := []; queries := [] |}.

(** A question whose reference query names a table that does not exist,
    and a question without a reference answer. *)
Definition broken_question : Question :=
  {| q_id := 2; title := "teachers by name"; description := "teachers by name";
     answer_sql := "SELECT * FROM missing" |}.
Definition unanswered_question : Question :=
  {| q_id := 3; title := "open question"; description := "open question";
     answer_sql := "" |}.

(** No seed file of [SQL_FILES] exists. *)
Definition no_seed_files (fs : gmap string (list stmt)) : Prop :=
  Forall (λ sql_file, fs !! path_join SQL_DIR sql_file = None) SQL_FILES.

(** * Properties *)

(** ** Comparison functions *)

Section compare_order.
Context {A} (cmp : A → A → comparison) `{!CompareOrder cmp}.

Lemma cmp_refl x : cmp x x = Eq.
Proof. by apply cmp_eq. Qed.

Global Instance cmp_le_total : Total (cmp_le cmp).
Proof.
  intros x y. unfold cmp_le. rewrite (cmp_opp (cmp:=cmp) x y).
  destruct (cmp x y); simpl; [left|left|right]; congruence.
Qed.

Global Instance cmp_le_antisym : AntiSymm (=) (cmp_le cmp).
Proof.
  intros x y. unfold cmp_le. rewrite (cmp_opp (cmp:=cmp) x y).
  destruct (cmp x y) eqn:E; simpl; try congruence.
  intros _ _. by apply cmp_eq.
Qed.

Global Instance cmp_le_trans : Transitive (cmp_le cmp).
Proof.
  intros x y z. unfold cmp_le.
  destruct (cmp x y) eqn:Exy; [|intros _|congruence].
  - apply cmp_eq in Exy as ->. auto.
  - destruct (cmp y z) eqn:Eyz; [|intros _|congruence].
    + apply cmp_eq in Eyz as ->. intros _. congruence.
    + rewrite (cmp_lt_trans (cmp:=cmp) x y z); congruence.
Qed.
End compare_order.

Global Instance lex_compare_order {A} (cmp : A → A → comparison) :
  CompareOrder cmp → CompareOrder (lex_compare cmp).
Proof.
  intros Hc. split.
  - intros l1. induction l1 as [|x l1 IH]; intros [|y l2]; simpl; try done.
    destruct (cmp x y) eqn:E.
    + apply cmp_eq in E as ->. rewrite (IH l2). split; congruence.
    + split; [done|]. intros [= -> ->]. by rewrite cmp_refl in E.
    + split; [done|]. intros [= -> ->]. by rewrite cmp_refl in E.
  - intros l1. induction l1 as [|x l1 IH]; intros [|y l2]; simpl; try done.
    rewrite (cmp_opp (cmp:=cmp) x y). destruct (cmp x y); simpl; auto.
  - intros l1. induction l1 as [|x l1 IH]; intros [|y l2] [|z l3]; simpl; try done.
    destruct (cmp x y) eqn:Exy; try done.
    + apply cmp_eq in Exy as ->.
      destruct (cmp y z); try done. apply IH.
    + intros _. destruct (cmp y z) eqn:Eyz; try done.
      * apply cmp_eq in Eyz as ->. by rewrite Exy.
      * by rewrite (cmp_lt_trans (cmp:=cmp) x y z).
Qed.

Global Instance Z_compare_order : CompareOrder Z.compare.
Proof.
  split.
  - intros. apply Z.compare_eq_iff.
  - intros. apply Z.compare_antisym.
  - intros x y z. rewrite !Z.compare_lt_iff. lia.
Qed.

Global Instance ascii_compare_order : CompareOrder Ascii.compare.
Proof.
  split.
  - intros x y. unfold Ascii.compare. rewrite N.compare_eq_iff.
    split; [|by intros ->]. intros E.
    by rewrite <-(ascii_N_embedding x), <-(ascii_N_embedding y), E.
  - intros x y. apply Ascii.compare_antisym.
  - intros x y z. unfold Ascii.compare. rewrite !N.compare_lt_iff. lia.
Qed.

Lemma string_compare_lex s1 s2 :
  String.compare s1 s2 =
  lex_compare Ascii.compare (list_ascii_of_string s1) (list_ascii_of_string s2).
Proof.
  revert s2. induction s1 as [|c1 s1 IH]; intros [|c2 s2]; simpl; try done.
  by rewrite IH.
Qed.

Global Instance string_compare_order : CompareOrder String.compare.
Proof.
  split.
  - intros x y. rewrite string_compare_lex, cmp_eq. split; [|by intros ->].
    intros E. by rewrite <-(string_of_list_ascii_of_string x),
      <-(string_of_list_ascii_of_string y), E.
  - intros x y. rewrite !string_compare_lex. apply cmp_opp.
  - intros x y z. rewrite !string_compare_lex. apply cmp_lt_trans.
Qed.

(** ** The verifier *)

Global Instance value_compare_order : CompareOrder value_compare.
Proof.
  split.
  - intros [|x|s] [|y|t]; simpl; try (split; congruence).
    + rewrite Z.compare_eq_iff. split; congruence.
    + rewrite (cmp_eq (cmp:=String.compare)). split; congruence.
  - intros [|x|s] [|y|t]; simpl; try done.
    + apply Z.compare_antisym.
    + apply (cmp_opp (cmp:=String.compare)).
  - intros [|x|s] [|y|t] [|z|u]; simpl; try done.
    + apply (cmp_lt_trans (cmp:=Z.compare)).
    + apply (cmp_lt_trans (cmp:=String.compare)).
Qed.

Global Instance row_compare_order : CompareOrder row_compare.
Proof. unfold row_compare. apply _. Qed.

Global Instance row_le_total : Total row_le.
Proof. unfold row_le. apply _. Qed.
Global Instance row_le_trans : Transitive row_le.
Proof. unfold row_le. apply _. Qed.
Global Instance row_le_antisym : AntiSymm (=) row_le.
Proof. unfold row_le. apply _. Qed.

Global Instance keyed_row_le_total : Total (λ a b : nat * row, row_le a.2 b.2).
Proof. intros a b. apply (total row_le). Qed.



(** *** What [read_sql_query] does to the cells *)





Lemma length_coerce_float (width : nat) (l : list row) :
  length (coerce_float width l) = length l.
Proof. unfold coerce_float. by rewrite length_fmap. Qed.

Lemma comparable_as_float64 (b : bool) (v1 v2 : value) :
  comparable (if b then as_float64 v1 else v1) (if b then as_float64 v2 else v2)
  = comparable v1 v2.
Proof. by destruct b, v1, v2. Qed.

Lemma row_comparable_coerce_row (floats : list bool) (r1 r2 : row) :
  row_comparable (coerce_row floats r1) (coerce_row floats r2)
  = row_comparable r1 r2.
Proof.
  revert floats r2. induction r1 as [|v1 r1 IH]; intros floats r2.
  { by destruct floats. }
  destruct r2 as [|v2 r2], floats as [|b floats]; simpl; try done.
  by rewrite comparable_as_float64, IH.
Qed.

(** The conversion keeps integers integers: what could be sorted before
    can be sorted after. *)
Lemma sortable_coerce_float (width : nat) (l : list row) :
  sortable l → sortable (coerce_float width l).
Proof.
  unfold sortable, coerce_float. intros H.
  rewrite Forall_fmap. apply (Forall_impl _ _ _ H). intros r1 H1. simpl.
  rewrite Forall_fmap. apply (Forall_impl _ _ _ H1). intros r2 H2. simpl.
  by rewrite row_comparable_coerce_row.
Qed.

(** *** Sorting *)

Lemma cells_head (l : list row) (v : value) :
  v ∈ cells 0 l → v ≠ VNull → ∃ r, v :: r ∈ l.
Proof.
  unfold cells. intros (r & -> & Hr)%list_elem_of_fmap Hv.
  destruct r as [|v r]; [done|]. by exists r.
Qed.

(** In rows that can be sorted no comparison of the first column fails. *)
Lemma first_clash_sortable (l : list row) :
  sortable l → first_clash (cells 0 l) = None.
Proof.
  intros Hs. unfold first_clash.
  destruct (filter _ _) as [|v0 vs] eqn:E; [done|].
  destruct (list_find _ vs) as [[i v]|] eqn:F; [|done]. exfalso.
  apply list_find_Some in F as (Hv & Hc & _).
  assert (v0 ∈ filter (λ v, v ≠ VNull) (cells 0 l)) as H0 by (rewrite E; left).
  assert (v ∈ filter (λ v, v ≠ VNull) (cells 0 l)) as H1.
  { rewrite E. right. by eapply list_elem_of_lookup_2. }
  apply list_elem_of_filter in H0 as [Hn0 H0].
  apply list_elem_of_filter in H1 as [Hn1 H1].
  destruct (cells_head _ _ H0 Hn0) as [r0 Hr0].
  destruct (cells_head _ _ H1 Hn1) as [r1 Hr1].
  unfold sortable in Hs. rewrite Forall_forall in Hs. specialize (Hs _ Hr1).
  rewrite Forall_forall in Hs. specialize (Hs _ Hr0). simpl in Hs.
  by rewrite Hc in Hs.
Qed.

Lemma sorted_by_all_columns_spec (df : DataFrame) :
  length (index df) = length (rows df) →
  columns (sorted_by_all_columns df) = columns df
  ∧ length (index (sorted_by_all_columns df))
    = length (rows (sorted_by_all_columns df))
  ∧ Sorted row_le (rows (sorted_by_all_columns df))
  ∧ rows (sorted_by_all_columns df) ≡ₚ rows df.
Proof.
  intros Hlen. unfold sorted_by_all_columns. simpl. split_and!.
  - done.
  - by rewrite !length_fmap.
  - apply (Sorted_fmap snd (λ a b, row_le a.2 b.2) row_le); [done|].
    apply (Sorted_merge_sort (λ a b : nat * row, row_le a.2 b.2)).
  - rewrite merge_sort_Permutation. rewrite snd_zip by lia. done.
Qed.

(** What [sort_values] returns on a frame it can sort: every frame but
    those of one column that mixes integers and texts. *)
Lemma sort_values_Return (df : DataFrame) :
  (length (columns df) = 1%nat → sortable (rows df)) →
  length (index df) = length (rows df) →
  ∃ s, sort_values df = Return s
       ∧ columns s = columns df
       ∧ length (index s) = length (rows s)
       ∧ (columns df ≠ [] → Sorted row_le (rows s))
       ∧ rows s ≡ₚ rows df.
Proof.
  intros Hs Hlen.
  destruct (sorted_by_all_columns_spec df Hlen) as (Hc & Hi & Hsorted & Hp).
  unfold sort_values. destruct (columns df) as [|c [|c' cs]] eqn:E.
  - exists df. by rewrite E.
  - unfold column. rewrite first_clash_sortable by (by apply Hs).
    eexists. split; [done|]. by rewrite <-E.
  - eexists. split; [done|]. by rewrite <-E.
Qed.


(** *** Comparing *)











(** ** The ledger *)

(** Where [save_history] leaves the world. *)
Lemma save_history_saved (qid : Z) (sql : string) (ok : bool)
    (msg : option string) (w : World) (l : list HistoryEntry) :
  db w !! USER_HISTORY = Some (Ledger l) →
  save_history qid sql ok msg w =
  ((), {| db := <[USER_HISTORY := Ledger (l ++ [
                   {| rowid := next_rowid l; question_id := qid;
                      user_sql := sql; is_correct := ok;
                      error_message := msg;
                      timestamp := (clock w / 1000)%N |}])]> (db w);
          clock := clock w; screen := screen w; queries := queries w |}).
Proof.
  intros Hl. unfold save_history, insert_history, get_db, current_timestamp,
    mbind, M_bind. by rewrite Hl.
Qed.

Lemma save_history_failed (qid : Z) (sql : string) (ok : bool)
    (msg : option string) (w : World) :
  (∀ l, db w !! USER_HISTORY ≠ Some (Ledger l)) →
  db (save_history qid sql ok msg w).2 = db w.
Proof.
  intros Hl. unfold save_history, insert_history, get_db, current_timestamp,
    mbind, M_bind.
  destruct (db w !! USER_HISTORY) as [[l|?]|] eqn:E; try done.
  by destruct (Hl l).
Qed.

Lemma get_solved_questions_spec (d : Database) (qid : Z) :
  qid ∈ get_solved_questions d ↔
  ∃ e, e ∈ ledger d ∧ question_id e = qid ∧ is_correct e = true.
Proof.
  unfold get_solved_questions, ledger.
  destruct (d !! USER_HISTORY) as [[l|?]|].
  - rewrite elem_of_list_to_set, list_elem_of_fmap. split.
    + intros (e & -> & [Hc He]%list_elem_of_filter). eauto.
    + intros (e & He & <- & Hc). exists e. split; [done|].
      by apply list_elem_of_filter.
  - split; [set_solver|]. intros (e & He & _). by apply not_elem_of_nil in He.
  - split; [set_solver|]. intros (e & He & _). by apply not_elem_of_nil in He.
Qed.

Lemma save_history_wrong_solved (qid : Z) (sql : string) (msg : option string)
    (w : World) :
  get_solved_questions (db (save_history qid sql false msg w).2)
  = get_solved_questions (db w).
Proof.
  destruct (db w !! USER_HISTORY) as [[l|?]|] eqn:E.
  - rewrite (save_history_saved _ _ _ _ _ l) by done. simpl.
    unfold get_solved_questions. rewrite lookup_insert_eq, E.
    rewrite filter_app, filter_cons_False by (simpl; congruence).
    by rewrite filter_nil, app_nil_r.
  - rewrite save_history_failed; [done|]. congruence.
  - rewrite save_history_failed; [done|]. congruence.
Qed.

(** C6: a question id is in [get_solved_questions()] exactly when the
    ledger holds an entry for it with [is_correct] true; and recording
    wrong submissions, however many and whenever, leaves the set as it
    was. *)
Theorem solved_iff_correct_entry (w : World) (qid : Z)
    (wrong : list (N * Z * string * option string)) :
  (qid ∈ get_solved_questions (db w) ↔
   ∃ e, e ∈ ledger (db w) ∧ question_id e = qid ∧ is_correct e = true)
  ∧ get_solved_questions (db (foldl record_wrong w wrong))
    = get_solved_questions (db w).
Proof.
  split; [apply get_solved_questions_spec|].
  revert w. induction wrong as [|[[[t q] sql] msg] wrong IH]; intros w; [done|].
  simpl. rewrite IH. unfold record_wrong.
  by rewrite save_history_wrong_solved.
Qed.

Lemma order_by_newest (e : HistoryEntry) (l : list HistoryEntry) :
  Forall (λ y, (timestamp y < timestamp e)%N) l →
  order_by_timestamp_desc (l ++ [e]) = e :: order_by_timestamp_desc l.
Proof.
  induction 1 as [|y l Hy _ IH]; [done|].
  unfold order_by_timestamp_desc in *. simpl. rewrite IH. simpl.
  destruct (timestamp y <? timestamp e)%N eqn:E; [done|].
  apply N.ltb_ge in E. lia.
Qed.

(** When the second of the wall clock is later than that of every earlier
    entry of the question, the new entry comes first and the earlier ones
    follow as before. *)
Lemma get_history_after_later_save (qid : Z) (sql : string) (ok : bool)
    (msg : option string) (w : World) (l : list HistoryEntry) :
  db w !! USER_HISTORY = Some (Ledger l) →
  (∀ y, y ∈ l → question_id y = qid → (timestamp y < clock w / 1000)%N) →
  get_history qid (db (save_history qid sql ok msg w).2)
  = (sql, ok, msg, (clock w / 1000)%N) :: get_history qid (db w).
Proof.
  intros Hl Hlater. rewrite (save_history_saved _ _ _ _ _ l) by done. simpl.
  unfold get_history. rewrite lookup_insert_eq, Hl.
  rewrite filter_app, filter_cons_True, filter_nil by done.
  rewrite order_by_newest; [done|].
  apply Forall_forall. intros y [Hy Hq]%list_elem_of_filter. simpl. auto.
Qed.

(** C7 fails on the code: of two entries recorded within the same second,
    [get_history] lists the older one first and the entry recorded last
    comes last. *)
Theorem get_history_same_second_oldest_first :
  get_history 0 (db same_second_world)
  = [("SELECT 1", false, Some "Result mismatch", 5%N);
     ("SELECT 2", true, None, 5%N)].
Proof. vm_compute. reflexivity. Qed.

(** ** Running queries *)

Section engine_facts.
Variable sqlite : string → Database → outcome.

Lemma run_query_eq (query : string) (w : World) :
  run_query sqlite query w
  = (answer_pair (answer (sqlite query (db w))), ran sqlite query w).
Proof.
  unfold run_query, read_sql_query, mbind, M_bind, ran.
  by destruct (answer (sqlite query (db w))).
Qed.

(** [run_query_with_timeout] hands back the worker's result when it came
    in time and "Timeout" otherwise; either way it returns when the
    worker has finished. *)
Lemma run_query_with_timeout_eq (query : string) (timeout_seconds : N) (w : World) :
  run_query_with_timeout sqlite query timeout_seconds w
  = (if (took (sqlite query (db w)) <=? timeout_seconds * 1000)%N
     then answer_pair (answer (sqlite query (db w)))
     else (None, Some "Timeout"),
     ran sqlite query w).
Proof.
  unfold run_query_with_timeout, submit, mbind, M_bind.
  rewrite run_query_eq. unfold result, shutdown, get_clock, set_clock, ran,
    mbind, M_bind, mret, M_ret. simpl.
  destruct (N.leb_spec (clock w + took (sqlite query (db w)))
              (clock w + timeout_seconds * 1000)) as [Hle|Hgt]; simpl.
  - rewrite (proj2 (N.leb_le _ _)) by lia. do 2 f_equal. lia.
  - rewrite (proj2 (N.leb_gt _ _)) by lia. do 2 f_equal. lia.
Qed.

(** A query that runs longer than the limit: the caller gets "Timeout",
    and gets it when the query is over, not when the limit is reached. *)
Lemma run_query_with_timeout_joins (query : string) (timeout_seconds : N) (w : World) :
  (timeout_seconds * 1000 < took (sqlite query (db w)))%N →
  (run_query_with_timeout sqlite query timeout_seconds w).1 = (None, Some "Timeout")
  ∧ clock (run_query_with_timeout sqlite query timeout_seconds w).2
    = (clock w + took (sqlite query (db w)))%N.
Proof.
  intros Hslow. rewrite run_query_with_timeout_eq. simpl.
  by rewrite (proj2 (N.leb_gt _ _)).
Qed.
End engine_facts.

(** C5 fails on the code: the reference query below runs for 5000 ms under
    a limit of 2 s; the caller gets "Timeout", but the clock then shows
    7000 + 5000, not 7000 + 2000: leaving the [with] block has waited for
    the worker thread. *)
Theorem run_query_with_timeout_returns_late :
  (run_query_with_timeout demo_sqlite
     "SELECT a.sno FROM STUDENTS a, CHOICES b, CHOICES c" 2 demo_world).1
  = (None, Some "Timeout")
  ∧ clock (run_query_with_timeout demo_sqlite
             "SELECT a.sno FROM STUDENTS a, CHOICES b, CHOICES c" 2 demo_world).2
    = 12000%N.
Proof. split; vm_compute; reflexivity. Qed.

(** ** The run and submit buttons *)

Lemma lstrip_spaces (s : string) :
  (∀ c, c ∈ list_ascii_of_string s → isspace c = true) → lstrip s = "".
Proof.
  induction s as [|c s IH]; simpl; [done|]. intros H.
  rewrite H by left. apply IH. intros c' Hc'. apply H. by right.
Qed.

Lemma strip_spaces (s : string) :
  (∀ c, c ∈ list_ascii_of_string s → isspace c = true) → strip s = "".
Proof. intros H. unfold strip. rewrite (lstrip_spaces s) by exact H. reflexivity. Qed.

(** C10: a click on run or on submit with an SQL text that is empty or all
    whitespace changes nothing but the screen, which gets the prompt: the
    database (ledger included) is the same, the clock has not moved and no
    query went to SQLite. *)
Theorem on_click_blank_sql
    (sqlite : string → Database → outcome) (run_clicked submit_clicked : bool)
    (current_q : Question) (user_sql : string) (w : World) :
  run_clicked || submit_clicked = true →
  (∀ c, c ∈ list_ascii_of_string user_sql → isspace c = true) →
  on_click sqlite run_clicked submit_clicked current_q user_sql w
  = ((), {| db := db w; clock := clock w; screen := screen w ++ [prompt];
            queries := queries w |}).
Proof.
  intros Hclick Hblank. unfold on_click.
  rewrite Hclick, strip_spaces by done. reflexivity.
Qed.

Lemma on_click_blank_sql_witness :
  false || true = true
  ∧ (∀ c, c ∈ list_ascii_of_string tab_and_spaces → isspace c = true)
  ∧ on_click demo_sqlite false true first_question tab_and_spaces demo_world
    = ((), {| db := db demo_world; clock := clock demo_world;
              screen := screen demo_world ++ [prompt];
              queries := queries demo_world |}).
Proof.
  assert (∀ c, c ∈ list_ascii_of_string tab_and_spaces → isspace c = true) as Hb.
  { apply (proj1 (Forall_forall (λ c, isspace c = true) _)).
    apply (bool_decide_unpack _). vm_compute. exact I. }
  split; [reflexivity|]. split; [exact Hb|].
  apply (on_click_blank_sql demo_sqlite false true first_question
           tab_and_spaces demo_world); [reflexivity|exact Hb].
Defined.

(** A submission whose own query fails is shown the error and nothing
    else happens: [save_history] is not reached. *)
Lemma on_click_error (sqlite : string → Database → outcome)
    (run_clicked submit_clicked : bool) (current_q : Question)
    (user_sql e : string) (w : World) :
  run_clicked || submit_clicked = true →
  truthy (strip user_sql) = true →
  answer (sqlite user_sql (db w)) = inl e → e ≠ "" →
  on_click sqlite run_clicked submit_clicked current_q user_sql w
  = show (st_error ("执行出错:" +:+ newline +:+ e)) (ran sqlite user_sql w).
Proof.
  intros Hclick Hsql He Hne. unfold on_click. rewrite Hclick, Hsql.
  unfold mbind at 1. unfold M_bind. rewrite run_query_eq, He. simpl.
  unfold truthy. by rewrite bool_decide_eq_true_2.
Qed.

(** C3 fails on the code: the submitted query names a table that does not
    exist and SQLite reports it; the handler shows the error, and the
    ledger is as empty as before. *)
Theorem on_click_error_not_recorded :
  answer (demo_sqlite failing_sql (db demo_world)) = inl "no such table: missing"
  ∧ ledger (db demo_world) = []
  ∧ ledger (db (on_click demo_sqlite false true first_question failing_sql
                  demo_world).2) = []
  ∧ screen (on_click demo_sqlite false true first_question failing_sql
              demo_world).2
    = [st_error ("执行出错:" +:+ newline +:+ "no such table: missing")].
Proof. repeat split; vm_compute; reflexivity. Qed.

Lemma display_eq (user_df : DataFrame) (w : World) :
  display user_df w = show_all (displayed user_df) w.
Proof.
  unfold display, displayed, show_all, show, mbind, M_bind. simpl.
  destruct (10 <? len user_df)%nat; simpl; by rewrite <-app_assoc.
Qed.

(** A submission whose own query ran: the rows are shown, the submission
    is graded and the verdict is saved. *)
Lemma on_click_submit (sqlite : string → Database → outcome)
    (run_clicked : bool) (current_q : Question) (submitted : string)
    (user_df : DataFrame) (w : World) :
  truthy (strip submitted) = true →
  answer (sqlite submitted (db w)) = inr user_df →
  on_click sqlite run_clicked true current_q submitted w
  = (let w1 := (show_all (displayed user_df) (ran sqlite submitted w)).2 in
     let r := grade sqlite current_q user_df None w1 in
     save_history (q_id current_q) submitted r.1.1 r.1.2 r.2).
Proof.
  intros Hsql Hans. unfold on_click. rewrite orb_true_r, Hsql.
  unfold mbind at 1. unfold M_bind. rewrite run_query_eq, Hans. simpl.
  unfold mbind, M_bind. rewrite display_eq. simpl.
  by destruct (grade _ _ _ _ _) as [[??]?].
Qed.

Lemma grade_timeout (sqlite : string → Database → outcome)
    (current_q : Question) (user_df : DataFrame) (error_msg : option string)
    (w : World) :
  truthy (answer_sql current_q) = true →
  (2 * 1000 < took (sqlite (answer_sql current_q) (db w)))%N →
  grade sqlite current_q user_df error_msg w
  = ((false, Some "Reference answer timeout, validation skipped."),
     (show_all [st_warning "参考答案加载超时，本次提交不进行判题，仅保存记录。"]
        (ran sqlite (answer_sql current_q) w)).2).
Proof.
  intros Href Hslow. unfold grade. rewrite Href.
  unfold mbind, M_bind. rewrite run_query_with_timeout_eq.
  by rewrite (proj2 (N.leb_gt _ _)).
Qed.

(** C4: the learner's query succeeds, the reference query runs longer
    than the two seconds allowed, and the ledger table is in place: one
    entry is appended for the question, with [is_correct] false and the
    detail "Reference answer timeout, validation skipped."; the screen
    gets the learner's rows, the row count and the timeout warning, and no
    verdict of a comparison. *)
Theorem on_click_reference_timeout
    (sqlite : string → Database → outcome) (run_clicked : bool)
    (current_q : Question) (submitted : string) (user_df : DataFrame)
    (w : World) (l : list HistoryEntry) :
  truthy (strip submitted) = true →
  answer (sqlite submitted (db w)) = inr user_df →
  truthy (answer_sql current_q) = true →
  (2 * 1000 < took (sqlite (answer_sql current_q)
                      (db (ran sqlite submitted w))))%N →
  db (ran sqlite (answer_sql current_q) (ran sqlite submitted w))
    !! USER_HISTORY = Some (Ledger l) →
  ∃ e, db (on_click sqlite run_clicked true current_q submitted w).2
       = <[USER_HISTORY := Ledger (l ++ [e])]>
           (db (ran sqlite (answer_sql current_q) (ran sqlite submitted w)))
     ∧ question_id e = q_id current_q
     ∧ user_sql e = submitted
     ∧ is_correct e = false
     ∧ error_message e = Some "Reference answer timeout, validation skipped."
     ∧ screen (on_click sqlite run_clicked true current_q submitted w).2
       = screen w ++ displayed user_df ++
         [st_warning "参考答案加载超时，本次提交不进行判题，仅保存记录。"].
Proof.
  intros Hsql Hans Href Hslow Hl.
  rewrite (on_click_submit _ _ _ _ user_df) by done. simpl.
  rewrite grade_timeout by done. simpl.
  rewrite (save_history_saved _ _ _ _ _ l) by done. simpl.
  eexists. split; [reflexivity|]. simpl. by rewrite <-app_assoc.
Qed.

Lemma on_click_reference_timeout_witness :
  truthy (strip learner_sql) = true
  ∧ answer (demo_sqlite learner_sql (db demo_world))
    = inr (read_frame ["sno"] [[VInt 1]; [VInt 2]])
  ∧ truthy (answer_sql slow_question) = true
  ∧ (2 * 1000 < took (demo_sqlite (answer_sql slow_question)
                        (db (ran demo_sqlite learner_sql demo_world))))%N
  ∧ db (ran demo_sqlite (answer_sql slow_question)
          (ran demo_sqlite learner_sql demo_world)) !! USER_HISTORY
    = Some (Ledger [])
  ∧ ∃ e, db (on_click demo_sqlite false true slow_question learner_sql demo_world).2
       = <[USER_HISTORY := Ledger ([] ++ [e])]>
           (db (ran demo_sqlite (answer_sql slow_question)
                  (ran demo_sqlite learner_sql demo_world)))
     ∧ question_id e = q_id slow_question
     ∧ user_sql e = learner_sql
     ∧ is_correct e = false
     ∧ error_message e = Some "Reference answer timeout, validation skipped."
     ∧ screen (on_click demo_sqlite false true slow_question learner_sql
                 demo_world).2
       = screen demo_world
         ++ displayed (read_frame ["sno"] [[VInt 1]; [VInt 2]])
         ++ [st_warning "参考答案加载超时，本次提交不进行判题，仅保存记录。"].
Proof.
  split; [reflexivity|]. split; [reflexivity|]. split; [reflexivity|].
  split; [reflexivity|]. split; [reflexivity|].
  apply (on_click_reference_timeout demo_sqlite false slow_question
           learner_sql (read_frame ["sno"] [[VInt 1]; [VInt 2]]) demo_world []);
    reflexivity.
Defined.

(** ** Navigation *)

Lemma ensure_index_in_range (questions : list Question) (i : Z) :
  questions ≠ [] → 0 ≤ i →
  0 ≤ ensure_index questions (Some i) < Z.of_nat (length questions).
Proof.
  intros Hq Hi. unfold ensure_index. simpl.
  destruct questions; [done|]. simpl length in *. case_decide; lia.
Qed.

Lemma update_index_in_range (titles : list string) (selected : string) (i : Z) :
  0 ≤ i < Z.of_nat (length titles) →
  0 ≤ update_index titles selected i < Z.of_nat (length titles).
Proof.
  intros Hi. unfold update_index.
  destruct (list_find _ titles) as [[j t]|] eqn:E; [|done].
  apply list_find_Some in E as (Hj & _). apply lookup_lt_Some in Hj. lia.
Qed.

Lemma length_question_titles (questions : list Question) (solved_ids : gset Z) :
  length (question_titles questions solved_ids) = length questions.
Proof. unfold question_titles. apply length_fmap. Qed.

Lemma rerun_in_range (questions : list Question) (i : Z) (ev : gset Z * event) :
  0 ≤ i < Z.of_nat (length questions) →
  0 ≤ rerun questions i ev < Z.of_nat (length questions).
Proof.
  intros Hi. unfold rerun.
  apply ensure_index_in_range; [by destruct questions; [simpl in Hi; lia|]|].
  destruct ev as [solved [| |t]]; simpl.
  - unfold prev_question. case_decide; lia.
  - unfold next_question. case_decide; lia.
  - pose proof (update_index_in_range (question_titles questions solved) t i) as H.
    rewrite length_question_titles in H. lia.
Qed.

Lemma navigate_in_range (questions : list Question) (evs : list (gset Z * event)) :
  questions ≠ [] →
  0 ≤ navigate questions evs < Z.of_nat (length questions).
Proof.
  intros Hq. unfold navigate.
  assert (0 ≤ ensure_index questions None < Z.of_nat (length questions)) as H0.
  { unfold ensure_index. simpl. destruct questions; [done|].
    simpl length. case_decide; lia. }
  revert H0. generalize (ensure_index questions None).
  induction evs as [|ev evs IH]; intros i Hi; [done|].
  simpl. apply IH. by apply rerun_in_range.
Qed.

(** C8: over a non-empty question list, after the first run of the script
    and any sequence of clicks and selections the index is a valid
    position; "next" adds one unless the index is the last position,
    "previous" subtracts one unless it is 0, and an index at or beyond the
    length of the list is set to 0 when the script starts. *)
Theorem current_index_in_range
    (questions : list Question) (evs : list (gset Z * event)) :
  questions ≠ [] →
  0 ≤ navigate questions evs < Z.of_nat (length questions)
  ∧ (∀ i, 0 ≤ i < Z.of_nat (length questions) →
        next_question questions i
        = if decide (i = Z.of_nat (length questions) - 1) then i else i + 1)
  ∧ (∀ i, 0 ≤ i < Z.of_nat (length questions) →
        prev_question i = if decide (i = 0) then i else i - 1)
  ∧ (∀ i, Z.of_nat (length questions) ≤ i →
        ensure_index questions (Some i) = 0).
Proof.
  intros Hq. split; [by apply navigate_in_range|]. split; [|split].
  - intros i Hi. unfold next_question. repeat case_decide; lia.
  - intros i Hi. unfold prev_question. repeat case_decide; lia.
  - intros i Hi. unfold ensure_index. simpl. by rewrite decide_True.
Qed.

Lemma current_index_in_range_witness :
  two_questions ≠ []
  ∧ 0 ≤ navigate two_questions some_clicks < Z.of_nat (length two_questions).
Proof.
  assert (two_questions ≠ []) as Hq by (vm_compute; discriminate).
  split; [exact Hq|].
  exact (proj1 (current_index_in_range two_questions some_clicks Hq)).
Defined.

(** ** Reseeding *)

Lemma exec_stmt_other_table (violation : Constraints) (s : stmt)
    (d d' : Database) :
  stmt_table s ≠ Some USER_HISTORY → exec_stmt violation s d = inr d' →
  d' !! USER_HISTORY = d !! USER_HISTORY.
Proof.
  destruct s as [kw db|t bare|t|t|t r]; simpl; intros Ht Hd; try done.
  - destruct (d !! upper t); [|done]. destruct (violation _ d); simplify_eq.
    apply lookup_delete_ne. congruence.
  - destruct (d !! upper t); [|by simplify_eq].
    destruct (violation _ d); simplify_eq. apply lookup_delete_ne. congruence.
  - destruct (d !! upper t); simplify_eq. apply lookup_insert_ne. congruence.
  - destruct (d !! upper t) as [[l|l]|]; [destruct (entry_of_row r)|..];
      try done; destruct (violation _ d); simplify_eq;
      apply lookup_insert_ne; congruence.
Qed.

Lemma executescript_other_tables (violation : Constraints)
    (content : list stmt) (d : Database) :
  Forall (λ s, stmt_table s ≠ Some USER_HISTORY) content →
  (executescript violation content d).2 !! USER_HISTORY = d !! USER_HISTORY.
Proof.
  intros H. revert d. induction H as [|s content Hs _ IH]; intros d; [done|].
  simpl. destruct (exec_stmt violation s d) as [e|d'] eqn:E; [done|].
  rewrite IH. by eapply exec_stmt_other_table.
Qed.

Lemma rewrite_script_tables (content : list stmt) :
  Forall (λ s, stmt_table s ≠ Some USER_HISTORY) content →
  Forall (λ s, stmt_table s ≠ Some USER_HISTORY) (rewrite_script content).
Proof.
  unfold rewrite_script. rewrite !Forall_forall.
  intros H s' (s & -> & [_ Hs]%list_elem_of_filter)%list_elem_of_fmap.
  specialize (H s Hs). by destruct s as [kw db|t [|]|t|t|t r].
Qed.

Lemma seed_files_other_tables (violation : Constraints)
    (fs : gmap string (list stmt)) (files : list string) (d : Database) :
  Forall (λ sql_file,
            match fs !! path_join SQL_DIR sql_file with
            | Some content =>
                Forall (λ s, stmt_table s ≠ Some USER_HISTORY) content
            | None => True
            end) files →
  (seed_files violation fs files d).2 !! USER_HISTORY = d !! USER_HISTORY.
Proof.
  intros H. revert d. induction H as [|f files Hf _ IH]; intros d; [done|].
  simpl. destruct (fs !! path_join SQL_DIR f) as [content|]; [|apply IH].
  pose proof (executescript_other_tables violation _ d
                (rewrite_script_tables _ Hf)) as Hd.
  destruct (executescript violation (rewrite_script content) d) as [[e|] d'];
    simpl in *; [done|]. by rewrite IH.
Qed.

Lemma init_db_db (violation : Constraints) (fs : gmap string (list stmt))
    (w : World) :
  db (init_db violation fs w).2
  = (seed_files violation fs SQL_FILES (create_history_if_not_exists (db w))).2.
Proof.
  unfold init_db, get_db, mbind, M_bind.
  by destruct (seed_files _ _ _ _) as [[e|] d'].
Qed.

(** C9: when no statement of the seed files names [USER_HISTORY], in
    whatever case, the reset button of the page leaves the ledger with the
    very entries it had, creates the (empty) ledger table only if the
    database had no table of that name, and the command-line reseed does
    not touch the table at all.  This holds whatever the constraints of
    the practice tables refuse. *)
Theorem reseed_keeps_ledger (violation : Constraints)
    (fs : gmap string (list stmt)) (w : World) :
  spares_ledger fs →
  ledger (db (init_db violation fs w).2) = ledger (db w)
  ∧ (∀ t, db w !! USER_HISTORY = Some t →
          db (init_db violation fs w).2 !! USER_HISTORY = Some t)
  ∧ (db w !! USER_HISTORY = None →
     db (init_db violation fs w).2 !! USER_HISTORY = Some (Ledger []))
  ∧ reset_db.init_db violation fs (db w) !! USER_HISTORY
    = db w !! USER_HISTORY.
Proof.
  intros Hfs.
  assert (db (init_db violation fs w).2 !! USER_HISTORY
          = create_history_if_not_exists (db w) !! USER_HISTORY) as Hdb.
  { rewrite init_db_db. by apply seed_files_other_tables. }
  split_and!.
  - unfold ledger. rewrite Hdb. unfold create_history_if_not_exists.
    destruct (db w !! USER_HISTORY) eqn:E; [by rewrite E|].
    by rewrite lookup_insert_eq.
  - intros t Ht. rewrite Hdb. unfold create_history_if_not_exists.
    by rewrite Ht.
  - intros Hnone. rewrite Hdb. unfold create_history_if_not_exists.
    rewrite Hnone. apply lookup_insert_eq.
  - unfold reset_db.init_db. by apply seed_files_other_tables.
Qed.

Lemma reseed_keeps_ledger_witness :
  spares_ledger school
  ∧ ledger (db (init_db school_keys school graded_world).2)
    = ledger (db graded_world).
Proof.
  assert (spares_ledger school) as H
    by (apply (bool_decide_unpack _); vm_compute; exact I).
  split; [exact H|].
  exact (proj1 (reseed_keeps_ledger school_keys school graded_world H)).
Defined.

(** * Further properties *)

(** ** The ledger, continued *)

Lemma next_rowid_above (l : list HistoryEntry) :
  Forall (λ e, (rowid e < next_rowid l)%nat) l.
Proof.
  unfold next_rowid. induction l as [|e l IH]; constructor; simpl.
  - lia.
  - eapply Forall_impl; [exact IH|]. simpl. intros; lia.
Qed.

(** X1: with the ledger table in place, [save_history] adds one entry at
    the end and leaves everything else alone: the earlier entries, the
    other tables and the screen.  The new id is unused, so ids that were
    distinct stay distinct. *)
Theorem save_history_appends (qid : Z) (sql : string) (ok : bool)
    (msg : option string) (w : World) (l : list HistoryEntry) :
  db w !! USER_HISTORY = Some (Ledger l) →
  NoDup (rowid <$> l) →
  ∃ e, ledger (db (save_history qid sql ok msg w).2) = l ++ [e]
       ∧ select_history e = (sql, ok, msg, (clock w / 1000)%N)
       ∧ question_id e = qid
       ∧ NoDup (rowid <$> ledger (db (save_history qid sql ok msg w).2))
       ∧ (∀ t, t ≠ USER_HISTORY →
               db (save_history qid sql ok msg w).2 !! t = db w !! t)
       ∧ screen (save_history qid sql ok msg w).2 = screen w.
Proof.
  intros Hl Hnd. rewrite (save_history_saved _ _ _ _ _ l) by done. simpl.
  eexists. unfold ledger. rewrite lookup_insert_eq.
  split; [reflexivity|]. split; [reflexivity|]. split; [reflexivity|].
  split; [|split; [|done]].
  - rewrite fmap_app. simpl. apply NoDup_app. split; [done|].
    split; [|apply NoDup_singleton].
    intros i Hi ->%list_elem_of_singleton.
    apply list_elem_of_fmap in Hi as (e & He & Hin).
    pose proof (next_rowid_above l) as Hf.
    rewrite Forall_forall in Hf. specialize (Hf e Hin). lia.
  - intros t Ht. by rewrite lookup_insert_ne.
Qed.

Lemma save_history_appends_witness :
  db demo_world !! USER_HISTORY = Some (Ledger [])
  ∧ NoDup (rowid <$> ([] : list HistoryEntry))
  ∧ ∃ e, ledger (db (save_history 3 "SELECT 1" true None demo_world).2) = [] ++ [e]
         ∧ select_history e = ("SELECT 1", true, None, (clock demo_world / 1000)%N).
Proof.
  assert (NoDup (rowid <$> ([] : list HistoryEntry))) as Hnd by constructor.
  split; [reflexivity|]. split; [exact Hnd|].
  destruct (save_history_appends 3 "SELECT 1" true None demo_world [] eq_refl Hnd)
    as (e & H1 & H2 & _).
  exists e. split; [exact H1|exact H2].
Defined.

(** X2: without a ledger table (none at all, or a practice table under
    that name) [save_history] changes no table and reports the failure with
    one [st.error]; the exception does not leave the function. *)
Theorem save_history_without_table (qid : Z) (sql : string) (ok : bool)
    (msg : option string) (w : World) :
  (∀ l, db w !! USER_HISTORY ≠ Some (Ledger l)) →
  ∃ e, save_history qid sql ok msg w
       = ((), {| db := db w; clock := clock w;
                 screen := screen w ++ [st_error ("Failed to save history: " +:+ e)];
                 queries := queries w |}).
Proof.
  intros Hl. unfold save_history, insert_history, get_db, current_timestamp,
    mbind, M_bind, show.
  destruct (db w !! USER_HISTORY) as [[l|?]|] eqn:E.
  - by destruct (Hl l).
  - by eexists.
  - by eexists.
Qed.

Lemma save_history_without_table_witness :
  (∀ l, db empty_world !! USER_HISTORY ≠ Some (Ledger l))
  ∧ ∃ e, save_history 0 "SELECT 1" true None empty_world
         = ((), {| db := db empty_world; clock := clock empty_world;
                   screen := screen empty_world
                             ++ [st_error ("Failed to save history: " +:+ e)];
                   queries := queries empty_world |}).
Proof.
  assert (∀ l, db empty_world !! USER_HISTORY ≠ Some (Ledger l)) as H
    by (intros l; vm_compute; discriminate).
  split; [exact H|].
  exact (save_history_without_table 0 "SELECT 1" true None empty_world H).
Defined.

Lemma init_history_table_eq (w : World) :
  init_history_table w
  = ((), {| db := create_history_if_not_exists (db w); clock := clock w;
            screen := screen w; queries := queries w |}).
Proof. reflexivity. Qed.

(** X3: [init_history_table] keeps a table that is there, with all its
    entries, creates the empty ledger when there is none, touches no other
    table, and running it again changes nothing. *)
Theorem init_history_table_idempotent (w : World) (t : string) :
  ledger (db (init_history_table w).2) = ledger (db w)
  ∧ is_Some (db (init_history_table w).2 !! USER_HISTORY)
  ∧ (t ≠ USER_HISTORY → db (init_history_table w).2 !! t = db w !! t)
  ∧ init_history_table (init_history_table w).2 = init_history_table w.
Proof.
  rewrite !init_history_table_eq. simpl.
  unfold create_history_if_not_exists.
  destruct (db w !! USER_HISTORY) as [tb|] eqn:E.
  - rewrite ?E. split; [done|]. split; [by eexists|]. by split.
  - rewrite ?lookup_insert_eq. unfold ledger. rewrite ?lookup_insert_eq, ?E.
    split; [done|]. split; [by eexists|]. split; [|done].
    intros Ht. by rewrite lookup_insert_ne.
Qed.

(** X4: after [init_history_table], on a database that had no table named
    [USER_HISTORY] or had the ledger under that name, [save_history] does
    record the submission. *)
Theorem save_history_after_init (qid : Z) (sql : string) (ok : bool)
    (msg : option string) (w : World) :
  (∀ r, db w !! USER_HISTORY ≠ Some (Rows r)) →
  ∃ e, ledger (db (save_history qid sql ok msg (init_history_table w).2).2)
       = ledger (db w) ++ [e]
       ∧ select_history e = (sql, ok, msg, (clock w / 1000)%N)
       ∧ question_id e = qid.
Proof.
  intros Hr.
  assert (db (init_history_table w).2 !! USER_HISTORY
          = Some (Ledger (ledger (db w)))) as Hl.
  { rewrite init_history_table_eq. simpl.
    unfold create_history_if_not_exists, ledger.
    destruct (db w !! USER_HISTORY) as [[l|r]|] eqn:E.
    - by rewrite ?E.
    - by destruct (Hr r).
    - apply lookup_insert_eq. }
  rewrite (save_history_saved _ _ _ _ _ _ Hl). simpl.
  eexists. unfold ledger at 1. rewrite lookup_insert_eq.
  split; [reflexivity|]. by split.
Qed.

Lemma save_history_after_init_witness :
  (∀ r, db empty_world !! USER_HISTORY ≠ Some (Rows r))
  ∧ ∃ e, ledger (db (save_history 0 "SELECT 1" true None
                       (init_history_table empty_world).2).2)
         = ledger (db empty_world) ++ [e]
         ∧ select_history e = ("SELECT 1", true, None, (clock empty_world / 1000)%N)
         ∧ question_id e = 0.
Proof.
  assert (∀ r, db empty_world !! USER_HISTORY ≠ Some (Rows r)) as H
    by (intros r; vm_compute; discriminate).
  split; [exact H|].
  exact (save_history_after_init 0 "SELECT 1" true None empty_world H).
Defined.

Lemma insert_desc_Permutation (e : HistoryEntry) (l : list HistoryEntry) :
  insert_desc e l ≡ₚ e :: l.
Proof.
  induction l as [|y l IH]; simpl; [done|].
  destruct (timestamp e <? timestamp y)%N; [|done].
  by rewrite IH, Permutation_swap.
Qed.

Lemma order_by_timestamp_desc_Permutation (l : list HistoryEntry) :
  order_by_timestamp_desc l ≡ₚ l.
Proof.
  unfold order_by_timestamp_desc. induction l as [|e l IH]; simpl; [done|].
  by rewrite insert_desc_Permutation, IH.
Qed.

Lemma insert_desc_sorted (e : HistoryEntry) (l : list HistoryEntry) :
  StronglySorted (λ a b, (timestamp b ≤ timestamp a)%N) l →
  StronglySorted (λ a b, (timestamp b ≤ timestamp a)%N) (insert_desc e l).
Proof.
  induction 1 as [|y l Hl IH Hy]; simpl; [by repeat constructor|].
  destruct (N.ltb_spec (timestamp e) (timestamp y)).
  - constructor; [done|]. rewrite insert_desc_Permutation.
    constructor; [lia|done].
  - constructor; [by constructor|]. constructor; [done|].
    eapply Forall_impl; [exact Hy|]. simpl. intros; lia.
Qed.

(** X5: [get_history] lists the entries of the question asked for, each
    one once and none of another question, with timestamps that never
    increase down the list. *)
Theorem get_history_sorted (qid : Z) (d : Database) :
  get_history qid d
    ≡ₚ select_history <$> filter (λ e, question_id e = qid) (ledger d)
  ∧ StronglySorted (λ a b : history_row, (b.2 ≤ a.2)%N) (get_history qid d).
Proof.
  unfold get_history, ledger.
  destruct (d !! USER_HISTORY) as [[l|?]|]; [|by repeat constructor..].
  split; [by rewrite order_by_timestamp_desc_Permutation|].
  apply (StronglySorted_fmap select_history
           (λ a b, (timestamp b ≤ timestamp a)%N)); [done|].
  unfold order_by_timestamp_desc.
  induction (filter _ l) as [|e l' IH]; simpl; [constructor|].
  by apply insert_desc_sorted.
Qed.

(** X6: recording a submission for one question does not change what
    [get_history] returns for any other question. *)
Theorem get_history_other_question (qid other : Z) (sql : string) (ok : bool)
    (msg : option string) (w : World) :
  other ≠ qid →
  get_history other (db (save_history qid sql ok msg w).2)
  = get_history other (db w).
Proof.
  intros Hne. destruct (db w !! USER_HISTORY) as [[l|?]|] eqn:E.
  - rewrite (save_history_saved _ _ _ _ _ l) by done. simpl.
    unfold get_history. rewrite lookup_insert_eq, E.
    rewrite filter_app, filter_cons_False by (simpl; congruence).
    by rewrite filter_nil, app_nil_r.
  - rewrite save_history_failed; [done|]. congruence.
  - rewrite save_history_failed; [done|]. congruence.
Qed.

Lemma get_history_other_question_witness :
  (1 : Z) ≠ 0
  ∧ get_history 1 (db (save_history 0 "SELECT 1" true None demo_world).2)
    = get_history 1 (db demo_world).
Proof.
  assert ((1 : Z) ≠ 0) as H by discriminate.
  split; [exact H|].
  exact (get_history_other_question 0 1 "SELECT 1" true None demo_world H).
Defined.

(** X7: once a submission judged correct is saved, the question is among
    the solved ones, and no other id joins or leaves the set. *)
Theorem solved_after_correct_save (qid : Z) (sql : string)
    (msg : option string) (w : World) (l : list HistoryEntry) :
  db w !! USER_HISTORY = Some (Ledger l) →
  get_solved_questions (db (save_history qid sql true msg w).2)
  = {[qid]} ∪ get_solved_questions (db w).
Proof.
  intros Hl. rewrite (save_history_saved _ _ _ _ _ l) by done. simpl.
  unfold get_solved_questions. rewrite lookup_insert_eq, Hl.
  rewrite filter_app, filter_cons_True, filter_nil by done.
  rewrite fmap_app, list_to_set_app_L. simpl.
  rewrite (right_id_L ∅ (∪)). apply (comm_L (∪)).
Qed.

Lemma solved_after_correct_save_witness :
  db demo_world !! USER_HISTORY = Some (Ledger [])
  ∧ get_solved_questions (db (save_history 4 "SELECT 1" true None demo_world).2)
    = {[4]} ∪ get_solved_questions (db demo_world).
Proof.
  split; [reflexivity|].
  exact (solved_after_correct_save 4 "SELECT 1" None demo_world [] eq_refl).
Defined.

(** ** Running queries, continued *)

(** X14: [run_query_with_timeout] leaves the database, the clock and the
    log exactly where [run_query] leaves them, also when it answers
    "Timeout": the query has run to its end and its writes are in place.
    Within the limit the two return the same pair. *)
Theorem run_query_with_timeout_like_run_query
    (sqlite : string → Database → outcome) (query : string)
    (timeout_seconds : N) (w : World) :
  (run_query_with_timeout sqlite query timeout_seconds w).2
  = (run_query sqlite query w).2
  ∧ (run_query_with_timeout sqlite query timeout_seconds w).1
    = if (took (sqlite query (db w)) <=? timeout_seconds * 1000)%N
      then (run_query sqlite query w).1
      else (None, Some "Timeout").
Proof. by rewrite run_query_with_timeout_eq, run_query_eq. Qed.

(** ** The run and submit buttons, continued *)

Lemma on_click_run_eq (sqlite : string → Database → outcome)
    (current_q : Question) (sql : string) (w : World) :
  truthy (strip sql) = true →
  on_click sqlite true false current_q sql w
  = match answer (sqlite sql (db w)) with
    | inl e =>
        if truthy e
        then show (st_error ("执行出错:" +:+ newline +:+ e)) (ran sqlite sql w)
        else show (st_exception "'NoneType' object has no attribute 'head'")
               (ran sqlite sql w)
    | inr df => show_all (displayed df) (ran sqlite sql w)
    end.
Proof.
  intros Hsql. unfold on_click. simpl. rewrite Hsql.
  unfold mbind at 1. unfold M_bind. rewrite run_query_eq.
  destruct (answer (sqlite sql (db w))) as [e|df]; simpl.
  - by destruct (truthy e).
  - unfold mbind, M_bind. by rewrite display_eq.
Qed.

(** X8: a click on "run" alone sends the learner's SQL to SQLite once and
    nothing else: no reference query, and no table is written except by
    that SQL itself; the ledger gets no entry from the handler. *)
Theorem on_click_run_only (sqlite : string → Database → outcome)
    (current_q : Question) (sql : string) (w : World) :
  truthy (strip sql) = true →
  db (on_click sqlite true false current_q sql w).2 = after (sqlite sql (db w))
  ∧ queries (on_click sqlite true false current_q sql w).2 = queries w ++ [sql]
  ∧ clock (on_click sqlite true false current_q sql w).2
    = (clock w + took (sqlite sql (db w)))%N.
Proof.
  intros Hsql. rewrite on_click_run_eq by done.
  destruct (answer (sqlite sql (db w))) as [e|df]; [|done].
  by destruct (truthy e).
Qed.

Lemma on_click_run_only_witness :
  truthy (strip learner_sql) = true
  ∧ db (on_click demo_sqlite true false slow_question learner_sql demo_world).2
    = after (demo_sqlite learner_sql (db demo_world)).
Proof.
  split; [reflexivity|].
  exact (proj1 (on_click_run_only demo_sqlite slow_question learner_sql
                  demo_world eq_refl)).
Defined.

(** A reference query that answers within the two seconds: the verdict is
    [verify] on its answer. *)
Lemma grade_in_time (sqlite : string → Database → outcome)
    (current_q : Question) (user_df : DataFrame) (error_msg : option string)
    (w : World) :
  truthy (answer_sql current_q) = true →
  (took (sqlite (answer_sql current_q) (db w)) ≤ 2 * 1000)%N →
  grade sqlite current_q user_df error_msg w
  = (let v := verify (answer_pair (answer (sqlite (answer_sql current_q) (db w))))
                user_df error_msg in
     (v.1, (show_all v.2 (ran sqlite (answer_sql current_q) w)).2)).
Proof.
  intros Href Hfast. unfold grade. rewrite Href.
  unfold mbind, M_bind. rewrite run_query_with_timeout_eq.
  rewrite (proj2 (N.leb_le _ _)) by done.
  by destruct (verify _ _ _) as [[??]?].
Qed.



(** X10: when the reference query itself fails with a database error
    (within the limit), the submission is still recorded, with
    [is_correct] false and without any error message, and the handler
    shows nothing about it: the error text of the reference query is
    dropped. *)
Theorem on_click_reference_error
    (sqlite : string → Database → outcome) (run_clicked : bool)
    (current_q : Question) (submitted e_ref : string) (user_df : DataFrame)
    (w : World) (l : list HistoryEntry) :
  truthy (strip submitted) = true →
  answer (sqlite submitted (db w)) = inr user_df →
  truthy (answer_sql current_q) = true →
  (took (sqlite (answer_sql current_q) (db (ran sqlite submitted w))) ≤ 2 * 1000)%N →
  answer (sqlite (answer_sql current_q) (db (ran sqlite submitted w))) = inl e_ref →
  e_ref ≠ "Timeout" →
  db (ran sqlite (answer_sql current_q) (ran sqlite submitted w))
    !! USER_HISTORY = Some (Ledger l) →
  ∃ e, ledger (db (on_click sqlite run_clicked true current_q submitted w).2)
       = l ++ [e]
     ∧ question_id e = q_id current_q
     ∧ is_correct e = false
     ∧ error_message e = None
     ∧ screen (on_click sqlite run_clicked true current_q submitted w).2
       = screen w ++ displayed user_df.
Proof.
  intros Hsql Hans Href Hfast Hexp Hne Hl.
  rewrite (on_click_submit _ _ _ _ user_df) by done.
  simpl in Hexp, Hfast, Hl |- *.
  rewrite grade_in_time by done. simpl. rewrite Hexp. simpl.
  rewrite decide_False by congruence. simpl.
  rewrite (save_history_saved _ _ _ _ _ l) by done. simpl.
  eexists. unfold ledger. rewrite lookup_insert_eq.
  split; [reflexivity|]. simpl. do 3 (split; [reflexivity|]).
  by rewrite app_nil_r.
Qed.

Lemma on_click_reference_error_witness :
  ∃ e, ledger (db (on_click demo_sqlite false true broken_question learner_sql
                     demo_world).2) = [] ++ [e]
     ∧ question_id e = q_id broken_question
     ∧ is_correct e = false
     ∧ error_message e = None
     ∧ screen (on_click demo_sqlite false true broken_question learner_sql
                 demo_world).2
       = screen demo_world ++ displayed (read_frame ["sno"] [[VInt 1]; [VInt 2]]).
Proof.
  apply (on_click_reference_error demo_sqlite false broken_question learner_sql
           "no such table: missing" (read_frame ["sno"] [[VInt 1]; [VInt 2]])
           demo_world []);
    [reflexivity|reflexivity|reflexivity|discriminate|reflexivity
    |discriminate|reflexivity].
Defined.

(** X11: for a question without a reference answer ([answer_sql] empty) a
    submission whose query ran is recorded with [is_correct] false and no
    error message; only the learner's SQL goes to SQLite. *)
Theorem on_click_no_reference_answer
    (sqlite : string → Database → outcome) (run_clicked : bool)
    (current_q : Question) (submitted : string) (user_df : DataFrame)
    (w : World) (l : list HistoryEntry) :
  truthy (strip submitted) = true →
  answer (sqlite submitted (db w)) = inr user_df →
  answer_sql current_q = "" →
  after (sqlite submitted (db w)) !! USER_HISTORY = Some (Ledger l) →
  ∃ e, ledger (db (on_click sqlite run_clicked true current_q submitted w).2)
       = l ++ [e]
     ∧ question_id e = q_id current_q
     ∧ is_correct e = false
     ∧ error_message e = None
     ∧ queries (on_click sqlite run_clicked true current_q submitted w).2
       = queries w ++ [submitted].
Proof.
  intros Hsql Hans Href Hl.
  rewrite (on_click_submit _ _ _ _ user_df) by done. simpl.
  unfold grade. rewrite Href. simpl.
  rewrite (save_history_saved _ _ _ _ _ l) by done. simpl.
  eexists. unfold ledger. rewrite lookup_insert_eq.
  split; [reflexivity|]. by simpl.
Qed.

Lemma on_click_no_reference_answer_witness :
  ∃ e, ledger (db (on_click demo_sqlite false true unanswered_question
                     learner_sql demo_world).2) = [] ++ [e]
     ∧ question_id e = q_id unanswered_question
     ∧ is_correct e = false
     ∧ error_message e = None
     ∧ queries (on_click demo_sqlite false true unanswered_question
                  learner_sql demo_world).2
       = queries demo_world ++ [learner_sql].
Proof.
  apply (on_click_no_reference_answer demo_sqlite false unanswered_question
           learner_sql (read_frame ["sno"] [[VInt 1]; [VInt 2]]) demo_world []);
    reflexivity.
Defined.

(** ** The verifier, continued *)

Lemma length_columns_range (names : list string) (t : list row) :
  length (columns (set_columns_range (read_frame names t))) = length names.
Proof. simpl. by rewrite length_fmap, length_seq, length_fmap. Qed.















(** X13: result sets with different numbers of columns are a mismatch,
    also when both are empty: once both sides are sorted the frames
    differ in shape, and the detail is "Result mismatch". *)
Theorem verify_column_count_mismatch
    (names1 names2 : list string) (t1 t2 : list row) (error_msg : option string) :
  length names1 ≠ length names2 → sortable t1 → sortable t2 →
  verify (Some (read_frame names1 t1), None) (read_frame names2 t2) error_msg
  = (false, Some "Result mismatch",
     [st_toast "❌ 结果与预期不完全一致，请检查数据或排序。"]).
Proof.
  intros Hk Hs1 Hs2. unfold verify. rewrite decide_False by done.
  unfold judge, compare_frames.
  destruct (sort_values_Return (set_columns_range (read_frame names1 t1)))
    as (s1 & -> & Hc1 & _ & _ & Hp1); simpl;
    [by intros _; apply sortable_coerce_float
    |by rewrite length_seq, length_coerce_float|].
  destruct (sort_values_Return (set_columns_range (read_frame names2 t2)))
    as (s2 & -> & Hc2 & _ & _ & Hp2); simpl;
    [by intros _; apply sortable_coerce_float
    |by rewrite length_seq, length_coerce_float|].
  unfold assert_frame_equal, shape, reset_index. cbn [columns rows].
  rewrite decide_False; [done|].
  rewrite Hc1, Hc2, !length_columns_range. congruence.
Qed.

Lemma verify_column_count_mismatch_witness :
  length ["sno"; "sname"] ≠ length ["sno"]
  ∧ sortable ([] : list row)
  ∧ verify (Some (read_frame ["sno"; "sname"] []), None) (read_frame ["sno"] []) None
    = (false, Some "Result mismatch",
       [st_toast "❌ 结果与预期不完全一致，请检查数据或排序。"]).
Proof.
  assert (length ["sno"; "sname"] ≠ length ["sno"]) as Hk by discriminate.
  assert (sortable ([] : list row)) as Hs by constructor.
  split; [exact Hk|]. split; [exact Hs|].
  exact (verify_column_count_mismatch ["sno"; "sname"] ["sno"] [] [] None Hk Hs Hs).
Defined.

(** ** Reseeding, continued *)

Lemma seed_files_none (violation : Constraints)
    (fs : gmap string (list stmt)) (files : list string) (d : Database) :
  Forall (λ sql_file, fs !! path_join SQL_DIR sql_file = None) files →
  seed_files violation fs files d = (None, d).
Proof.
  induction 1 as [|f files Hf _ IH]; simpl; [done|]. by rewrite Hf.
Qed.

(** X16: when none of the four seed files exists, the reset button changes
    no practice table, ends with the success message all the same, and has
    at most created the empty ledger; the command-line reseed leaves the
    database as it is. *)
Theorem init_db_without_seed_files (violation : Constraints)
    (fs : gmap string (list stmt)) (w : World) :
  no_seed_files fs →
  init_db violation fs w
  = ((), {| db := create_history_if_not_exists (db w); clock := clock w;
            screen := screen w ++ [st_success "数据库已成功初始化/重置！"];
            queries := queries w |})
  ∧ reset_db.init_db violation fs (db w) = db w.
Proof.
  intros Hfs. unfold init_db, reset_db.init_db, get_db, mbind, M_bind.
  by rewrite !seed_files_none.
Qed.

Lemma init_db_without_seed_files_witness :
  no_seed_files ∅
  ∧ reset_db.init_db school_keys ∅ (db graded_world) = db graded_world.
Proof.
  assert (no_seed_files ∅) as H by (repeat constructor).
  split; [exact H|].
  exact (proj2 (init_db_without_seed_files school_keys ∅ graded_world H)).
Defined.

(** X18: on a database that has a table named [USER_HISTORY] the reset
    button and the command-line reseed leave the same tables, whatever the
    seed files hold and whatever their constraints refuse. *)
Theorem init_db_like_reset_db (violation : Constraints)
    (fs : gmap string (list stmt)) (w : World) :
  is_Some (db w !! USER_HISTORY) →
  db (init_db violation fs w).2 = reset_db.init_db violation fs (db w).
Proof.
  intros [t Ht]. rewrite init_db_db. unfold reset_db.init_db.
  unfold create_history_if_not_exists. by rewrite Ht.
Qed.

Lemma init_db_like_reset_db_witness :
  is_Some (db graded_world !! USER_HISTORY)
  ∧ db (init_db school_keys school graded_world).2
    = reset_db.init_db school_keys school (db graded_world).
Proof.
  assert (is_Some (db graded_world !! USER_HISTORY)) as H
    by (eexists; vm_compute; reflexivity).
  split; [exact H|].
  exact (init_db_like_reset_db school_keys school graded_world H).
Defined.

(** ** Blank SQL, continued *)

Lemma isspace2_lead (a b : ascii) : isspace2 a b = true → isspace a = false.
Proof.
  unfold isspace2, isspace.
  generalize (nat_of_ascii a) (nat_of_ascii b). intros n m. cbv zeta.
  destruct (Nat.eqb_spec n 194); [|done]. by subst.
Qed.

Lemma isspace3_lead (a b c : ascii) :
  isspace3 a b c = true → isspace a = false ∧ isspace2 a b = false.
Proof.
  unfold isspace3, isspace2, isspace.
  generalize (nat_of_ascii a) (nat_of_ascii b) (nat_of_ascii c).
  intros n m k. cbv zeta.
  destruct (Nat.eqb_spec n 225), (Nat.eqb_spec n 226), (Nat.eqb_spec n 227);
    subst; try done.
Qed.

(** A text of whitespace characters is stripped to nothing, ... *)
Lemma whitespace_lstrip (s : string) : whitespace s → lstrip s = "".
Proof.
  induction 1 as [|a s Ha _ IH|a b s Hab _ IH|a b c s Habc _ IH]; simpl.
  - done.
  - by rewrite Ha.
  - by rewrite (isspace2_lead a b), Hab.
  - destruct (isspace3_lead a b c Habc) as [-> ->]. by rewrite Habc.
Qed.

(** ... and no other text is. *)
Lemma lstrip_whitespace (n : nat) (s : string) :
  (String.length s ≤ n)%nat → lstrip s = "" → whitespace s.
Proof.
  revert s. induction n as [|n IH]; intros [|a s1] Hlen H; simpl in Hlen;
    [apply whitespace_nil|lia|apply whitespace_nil|].
  simpl in H. destruct (isspace a) eqn:Ea.
  { apply whitespace_1; [done|]. apply IH; [lia|done]. }
  destruct s1 as [|b s2]; [done|]. simpl in Hlen.
  destruct (isspace2 a b) eqn:Eab.
  { apply whitespace_2; [done|]. apply IH; [lia|done]. }
  destruct s2 as [|c s3]; [done|]. simpl in Hlen.
  destruct (isspace3 a b c) eqn:Eabc; [|done].
  apply whitespace_3; [done|]. apply IH; [lia|done].
Qed.

(** What [lstrip] leaves does not start with a whitespace character. *)
Lemma lstrip_idemp (n : nat) (s : string) :
  (String.length s ≤ n)%nat → lstrip (lstrip s) = lstrip s.
Proof.
  revert s. induction n as [|n IH]; intros [|a s1] Hlen; simpl in Hlen;
    try (done || lia).
  simpl. destruct (isspace a) eqn:Ea; [apply IH; lia|].
  destruct s1 as [|b s2]; [simpl; by rewrite Ea|]. simpl in Hlen.
  destruct (isspace2 a b) eqn:Eab; [apply IH; lia|].
  destruct s2 as [|c s3]; [simpl; by rewrite Ea, Eab|]. simpl in Hlen.
  destruct (isspace3 a b c) eqn:Eabc; [apply IH; lia|].
  simpl. by rewrite Ea, Eab, Eabc.
Qed.

(** When [rstrip] leaves nothing, the text read forwards is made of
    whitespace characters. *)
Lemma rstrip_reversed_whitespace (n : nat) (r acc : string) :
  (String.length r ≤ n)%nat → whitespace acc → rstrip_reversed r = "" →
  whitespace (String.rev_app r acc).
Proof.
  revert r acc. induction n as [|n IH]; intros [|c r1] acc Hlen Hacc H;
    simpl in Hlen; try (done || lia).
  simpl in H |- *. destruct (isspace c) eqn:Ec.
  { apply IH; [lia| |done]. by apply whitespace_1. }
  destruct r1 as [|b r2]; [done|]. simpl in Hlen |- *.
  destruct (isspace2 b c) eqn:Ebc.
  { apply IH; [lia| |done]. by apply whitespace_2. }
  destruct r2 as [|a r3]; [done|]. simpl in Hlen |- *.
  destruct (isspace3 a b c) eqn:Eabc; [|done].
  apply IH; [lia| |done]. by apply whitespace_3.
Qed.

Lemma list_ascii_of_rev_app (s1 s2 : string) :
  list_ascii_of_string (String.rev_app s1 s2)
  = reverse (list_ascii_of_string s1) ++ list_ascii_of_string s2.
Proof.
  revert s2. induction s1 as [|c s1 IH]; intros s2; simpl; [done|].
  by rewrite IH, reverse_cons, <-app_assoc.
Qed.

Lemma list_ascii_of_rev (s : string) :
  list_ascii_of_string (String.rev s) = reverse (list_ascii_of_string s).
Proof. unfold String.rev. by rewrite list_ascii_of_rev_app, app_nil_r. Qed.

Lemma string_rev_empty (s : string) : String.rev s = "" → s = "".
Proof.
  intros H. apply (f_equal list_ascii_of_string) in H.
  rewrite list_ascii_of_rev in H. simpl in H.
  destruct s as [|c s]; [done|]. simpl in H. rewrite reverse_cons in H.
  by destruct (reverse (list_ascii_of_string s)).
Qed.

Lemma string_rev_involutive (s : string) : String.rev (String.rev s) = s.
Proof.
  rewrite <-(string_of_list_ascii_of_string (String.rev (String.rev s))).
  rewrite !list_ascii_of_rev, reverse_involutive.
  apply string_of_list_ascii_of_string.
Qed.

(** X19: the handler takes the SQL text for blank exactly when it is made
    of whitespace characters only, those of ASCII and those beyond:
    [user_sql.strip()] is empty for such a text and for no other. *)
Theorem strip_empty_iff (s : string) :
  truthy (strip s) = false ↔ whitespace s.
Proof.
  unfold truthy. rewrite bool_decide_eq_false. split.
  - intros H. apply dec_stable in H. unfold strip in H.
    apply string_rev_empty in H.
    apply (rstrip_reversed_whitespace _ _ "" (le_n _) whitespace_nil) in H.
    fold (String.rev (String.rev (lstrip s))) in H.
    rewrite string_rev_involutive in H.
    apply whitespace_lstrip in H.
    rewrite (lstrip_idemp _ _ (le_n _)) in H.
    by apply (lstrip_whitespace _ _ (le_n _)).
  - intros H Hne. apply Hne. unfold strip.
    by rewrite (whitespace_lstrip s H).
Qed.

(** ** Questions and navigation, continued *)

(** X20: [load_questions] numbers the questions by their position in the
    file, from 0 and without gaps, and takes title and reference SQL from
    the item at that position; an empty file gives no question. *)
Theorem load_questions_ids (data : list (string * string)) (i : nat) :
  q_id <$> load_questions data = Z.of_nat <$> seq 0 (length data)
  ∧ title <$> load_questions data !! i = fst <$> data !! i
  ∧ answer_sql <$> load_questions data !! i = snd <$> data !! i.
Proof.
  unfold load_questions. split; [|split].
  - apply list_eq. intros j.
    rewrite !list_lookup_fmap, list_lookup_imap.
    destruct (data !! j) as [item|] eqn:E; simpl.
    + rewrite lookup_seq_lt by (by eapply lookup_lt_Some). done.
    + rewrite lookup_ge_None_2; [done|].
      rewrite length_seq. by apply lookup_ge_None.
  - rewrite list_lookup_imap. by destruct (data !! i).
  - rewrite list_lookup_imap. by destruct (data !! i).
Qed.

Lemma length_load_questions (data : list (string * string)) :
  length (load_questions data) = length data.
Proof. unfold load_questions. apply length_imap. Qed.

Lemma load_questions_lookup (data : list (string * string)) (i : nat)
    (q : Question) :
  load_questions data !! i = Some q → q_id q = Z.of_nat i.
Proof.
  unfold load_questions. rewrite list_lookup_imap.
  destruct (data !! i); by intros [= <-].
Qed.

(** X21: with at least one question in the file, the lookup
    [questions[st.session_state.current_index]] finds a question after
    every sequence of clicks and selections, and the id of that question
    is the index itself. *)
Theorem current_question_found (data : list (string * string))
    (evs : list (gset Z * event)) :
  data ≠ [] →
  ∃ current_q,
    load_questions data !! Z.to_nat (navigate (load_questions data) evs)
    = Some current_q
    ∧ q_id current_q = navigate (load_questions data) evs.
Proof.
  intros Hdata.
  assert (load_questions data ≠ []) as Hq.
  { intros H. apply (f_equal length) in H.
    rewrite length_load_questions in H. by destruct data. }
  pose proof (navigate_in_range (load_questions data) evs Hq) as Hr.
  destruct (lookup_lt_is_Some_2 (load_questions data)
              (Z.to_nat (navigate (load_questions data) evs))) as [q Hlk];
    [lia|].
  exists q. split; [done|].
  apply load_questions_lookup in Hlk. lia.
Qed.

Lemma current_question_found_witness :
  [("list the student numbers", "SELECT sno FROM STUDENTS");
   ("count the courses", "SELECT COUNT(*) FROM COURSES")] ≠ []
  ∧ ∃ current_q,
      two_questions !! Z.to_nat (navigate two_questions some_clicks)
      = Some current_q
      ∧ q_id current_q = navigate two_questions some_clicks.
Proof.
  assert ([("list the student numbers", "SELECT sno FROM STUDENTS");
           ("count the courses", "SELECT COUNT(*) FROM COURSES")] ≠ []) as H
    by discriminate.
  split; [exact H|].
  exact (current_question_found _ some_clicks H).
Defined.

(** X22: selecting a title that is in the list moves the index to the
    first position that carries this title. *)
Theorem update_index_selects (titles : list string) (selected : string)
    (current_index : Z) :
  selected ∈ titles →
  ∃ i : nat,
    update_index titles selected current_index = Z.of_nat i
    ∧ titles !! i = Some selected
    ∧ ∀ j, (j < i)%nat → titles !! j ≠ Some selected.
Proof.
  intros Hin. unfold update_index.
  destruct (list_find_elem_of (λ t, t = selected) titles selected Hin eq_refl)
    as [[i t] Hfind].
  rewrite Hfind. apply list_find_Some in Hfind as (Hi & -> & Hfirst).
  exists i. split; [done|]. split; [done|].
  intros j Hj Hlk. by apply (Hfirst j selected).
Qed.

Lemma update_index_selects_witness :
  "2. count the courses" ∈ question_titles two_questions ∅
  ∧ ∃ i : nat,
      update_index (question_titles two_questions ∅) "2. count the courses" 0
      = Z.of_nat i
      ∧ question_titles two_questions ∅ !! i = Some "2. count the courses".
Proof.
  assert ("2. count the courses" ∈ question_titles two_questions ∅) as H
    by (apply (bool_decide_unpack _); vm_compute; exact I).
  split; [exact H|].
  destruct (update_index_selects (question_titles two_questions ∅)
              "2. count the courses" 0 H) as (i & H1 & H2 & _).
  exists i. split; [exact H1|exact H2].
Defined.

(** X23: away from the ends of the list "next" and "previous" undo each
    other. *)
Theorem prev_next_round_trip (questions : list Question) (i : Z) :
  0 ≤ i < Z.of_nat (length questions) - 1 →
  prev_question (next_question questions i) = i
  ∧ next_question questions (prev_question (i + 1)) = i + 1.
Proof.
  intros Hi. unfold prev_question, next_question.
  repeat case_decide; lia.
Qed.

Lemma prev_next_round_trip_witness :
  0 ≤ 0 < Z.of_nat (length two_questions) - 1
  ∧ prev_question (next_question two_questions 0) = 0.
Proof.
  assert (0 ≤ 0 < Z.of_nat (length two_questions) - 1) as H
    by (vm_compute; split; [discriminate|reflexivity]).
  split; [exact H|].
  exact (proj1 (prev_next_round_trip two_questions 0 H)).
Defined.

(** ** Column names on display *)

Lemma numbered_name_inj (col : label) (i j : nat) :
  Name (label_text col +:+ "." +:+ pretty i)
  = Name (label_text col +:+ "." +:+ pretty j) → i = j.
Proof.
  intros [= H]. apply (inj (String.app _)) in H.
  apply (inj (String.app _)) in H. by apply (inj pretty) in H.
Qed.

Lemma string_app_nil_r (s : string) : s +:+ "" = s.
Proof.
  induction s as [|c s IH]; [done|].
  change (String c (s +:+ "") = String c s). by rewrite IH.
Qed.

Lemma numbered_name_ne (col : label) (i : nat) :
  Name (label_text col +:+ "." +:+ pretty i) ≠ col.
Proof.
  destruct col as [s|k]; [|done]. simpl. intros [= H].
  rewrite <-(string_app_nil_r s) in H at 2.
  by apply (inj (String.app _)) in H.
Qed.

(** The loop finds an unused name: the names it tries are pairwise
    different, so they cannot all be among the [length seen] names seen so
    far. *)
Lemma unused_name_fresh (col : label) (seen : list label) :
  ∀ (rounds : nat) (c : label) (i : nat) (tried : list label),
    NoDup (c :: tried) →
    (∀ x, x ∈ tried → x ∈ seen) →
    (∀ j, (i ≤ j)%nat →
          Name (label_text col +:+ "." +:+ pretty j) ∉ c :: tried) →
    (length seen ≤ length tried + rounds)%nat →
    unused_name rounds col c i seen ∉ seen.
Proof.
  induction rounds as [|rounds IH]; intros c i tried Hnd Hsub Hgen Hlen;
    simpl; case_decide as Hc; try done.
  - exfalso.
    assert (c :: tried ⊆+ seen) as Hs.
    { apply NoDup_submseteq; [done|]. intros x [->|Hx]%elem_of_cons; auto. }
    apply submseteq_length in Hs. simpl in Hs. lia.
  - apply (IH _ _ (c :: tried)).
    + apply NoDup_cons. split; [|done]. apply Hgen. lia.
    + intros x [->|Hx]%elem_of_cons; auto.
    + intros j Hj [Heq|Hin]%elem_of_cons.
      * apply numbered_name_inj in Heq. lia.
      * apply (Hgen j); [lia|done].
    + simpl. lia.
Qed.

Lemma display_columns_loop (cols seen new_cols : list label) :
  seen ≡ₚ new_cols → NoDup new_cols →
  NoDup (foldl (λ '(seen, new_cols) col,
                  let c := unused_name (length seen) col col 1 seen in
                  (c :: seen, new_cols ++ [c]))
               (seen, new_cols) cols).2
  ∧ length (foldl (λ '(seen, new_cols) col,
                     let c := unused_name (length seen) col col 1 seen in
                     (c :: seen, new_cols ++ [c]))
                  (seen, new_cols) cols).2
    = (length new_cols + length cols)%nat.
Proof.
  revert seen new_cols.
  induction cols as [|col cols IH]; intros seen new_cols Hp Hnd; simpl.
  - split; [done|lia].
  - assert (unused_name (length seen) col col 1 seen ∉ seen) as Hfresh.
    { apply (unused_name_fresh col seen _ _ _ []).
      - apply NoDup_singleton.
      - intros x Hx. by apply not_elem_of_nil in Hx.
      - intros j _ [Heq|Hin]%elem_of_cons.
        + by apply numbered_name_ne in Heq.
        + by apply not_elem_of_nil in Hin.
      - simpl. lia. }
    set (c := unused_name (length seen) col col 1 seen) in *. clearbody c.
    destruct (IH (c :: seen) (new_cols ++ [c])) as [H1 H2].
    + by rewrite Hp, Permutation_cons_append.
    + apply NoDup_app. split; [done|]. split; [|apply NoDup_singleton].
      intros x Hx ->%list_elem_of_singleton. apply Hfresh. by rewrite Hp.
    + split; [exact H1|]. etrans; [exact H2|].
      rewrite length_app. simpl. lia.
Qed.

(** X24: the column names put on display are pairwise different, there
    are as many as before, and names that were already different are shown
    unchanged. *)
Theorem display_columns_NoDup (cols : list label) :
  NoDup (display_columns cols)
  ∧ length (display_columns cols) = length cols
  ∧ (NoDup cols → display_columns cols = cols).
Proof.
  unfold display_columns. case_decide as Hnd.
  - done.
  - destruct (display_columns_loop cols [] []) as [H1 H2];
      [done|constructor|].
    split; [done|]. split; [done|]. intros H. by destruct Hnd.
Qed.
